(** * orders-ms: the order service (src/orders/orders.service.ts)

    A shallow embedding of [OrdersService]: the Prisma store it extends is an
    explicit table of order records, the NATS client it is given is a record
    of responders together with a log of the messages sent, and a thrown
    exception is the left summand of a result.  Every [async] method becomes
    a function in the state-and-exception monad [Task]. *)

From Stdlib Require Import ZArith String List Bool Lia.
Import ListNotations.
Local Open Scope Z_scope.

(** ** Numbers

    Quantities, counts, pages and limits are integers and are modelled in
    [Z].  Prices and amounts are JavaScript numbers used with [+] and [*]
    only; the service is written against the interface below, so that
    nothing proved about it depends on the laws of one arithmetic. *)

Class Money (M : Type) : Type := {
  mzero  : M;                 (* the literal 0 *)
  madd   : M -> M -> M;       (* acc + x *)
  mscale : M -> Z -> M        (* price * quantity *)
}.

#[global] Instance Money_Z : Money Z :=
  {| mzero := 0; madd := Z.add; mscale := Z.mul |}.

(** ** Exceptions *)

(** The payload of an [RpcException]: [{ message, status }]. *)
Record RpcError : Type := {
  rpc_message : string;
  rpc_status  : Z
}.

(** [HttpStatus.NOT_FOUND] of @nestjs/common. *)
Definition NOT_FOUND : Z := 404.

(** Why the store rejects a write. *)
Inductive StoreRejection : Type :=
| UniqueConstraint      (* the key is already taken *)
| RecordNotFound        (* no record for the [where] of an update *)
| RelationViolation.    (* a second row on a one-to-one relation *)

Inductive Exception : Type :=
| RpcException (payload : RpcError)
    (* thrown by the service itself, or wrapping a failed remote call *)
| TypeError (property : string)
    (* reading [property] of [undefined] *)
| PrismaError (reason : StoreRejection).
    (* a request the store rejects *)

Definition Result (A : Type) : Type := (Exception + A)%type.

(** [reduce] and [map] with a callback that may throw: the first exception
    ends the traversal. *)
Fixpoint reduce {A B : Type} (f : B -> A -> Result B) (l : list A) (acc : B)
  : Result B :=
  match l with
  | [] => inr acc
  | x :: l' =>
      match f acc x with
      | inl e => inl e
      | inr acc' => reduce f l' acc'
      end
  end.

Fixpoint mapE {A B : Type} (f : A -> Result B) (l : list A)
  : Result (list B) :=
  match l with
  | [] => inr []
  | x :: l' =>
      match f x with
      | inl e => inl e
      | inr y =>
          match mapE f l' with
          | inl e => inl e
          | inr ys => inr (y :: ys)
          end
      end
  end.

(** ** Data model *)

(** Modelled from the spec: the enumeration [OrderStatus] of the Prisma
    schema is not in the sources; section 6 lists its members. *)
Inductive OrderStatus : Type := PENDING | PAID | DELIVERED | CANCELLED.

Definition OrderStatus_eqb (a b : OrderStatus) : bool :=
  match a, b with
  | PENDING, PENDING | PAID, PAID
  | DELIVERED, DELIVERED | CANCELLED, CANCELLED => true
  | _, _ => false
  end.

Section Service.

Context {M : Type} {money : Money M}.

(** An entry of the catalog's reply to [validate_products]. *)
Record Product : Type := {
  product_id    : string;
  product_name  : string;
  product_price : M
}.

(** Modelled from the spec: [CreateOrderDto] is not in the sources; the
    service reads [items], and [productId] and [quantity] of each item. *)
Record OrderItemDto : Type := {
  item_productId : string;
  item_quantity  : Z
}.

Record CreateOrderDto : Type := {
  dto_items : list OrderItemDto
}.

(** src/common: [PaginationDto], with its defaults [page = 1], [limit = 10]. *)
Record PaginationDto : Type := {
  pg_page   : positive;    (* @IsPositive() *)
  pg_limit  : positive;    (* @IsPositive() *)
  pg_status : option OrderStatus
}.

Definition PaginationDto_default : PaginationDto :=
  {| pg_page := 1%positive; pg_limit := 10%positive; pg_status := None |}.

Record ChangeOrderStatus : Type := {
  cos_id     : string;
  cos_status : OrderStatus
}.

(** Modelled from the spec: [PaidOrderDto] is not in the sources; [paidOrder]
    reads these three fields. *)
Record PaidOrderDto : Type := {
  paid_orderId         : string;
  paid_stripePaymentId : string;
  paid_receiptUrl      : string
}.

(** Modelled from the spec: the Prisma schema is not in the sources.  The
    scalar fields of an order are those of section 3 under the names the
    service uses; timestamps are integers. *)
Record Order : Type := {
  order_id             : string;
  order_totalAmount    : M;
  order_totalItems     : Z;
  order_status         : OrderStatus;
  order_paid           : bool;
  order_paidAt         : option Z;
  order_stripeChargeId : option string;
  order_createdAt      : Z
}.

(** An order item as selected by the service: [price], [quantity],
    [productId]. *)
Record OrderItem : Type := {
  oi_price     : M;
  oi_quantity  : Z;
  oi_productId : string
}.

Record OrderReceipt : Type := {
  receipt_url : string
}.

(** A stored order: the scalar fields, and the rows of the two relations
    [OrderItem] and [OrderReceipt] that belong to it. *)
Record OrderRecord : Type := {
  rec_order        : Order;
  rec_OrderItem    : list OrderItem;
  rec_OrderReceipt : list OrderReceipt
}.

(** What [include: { OrderItem: { select: ... } }] returns. *)
Record OrderWithItems : Type := {
  owi_order     : Order;
  owi_OrderItem : list OrderItem
}.

(** An item with the name merged in: [{ ...orderItem, name }]. *)
Record NamedItem : Type := {
  ni_price     : M;
  ni_quantity  : Z;
  ni_productId : string;
  ni_name      : string
}.

(** [OrderWithProducts]: [{ ...order, OrderItem: [...] }]. *)
Record OrderWithProducts : Type := {
  owp_order     : Order;
  owp_OrderItem : list NamedItem
}.

(** ** The world: the store and the message log *)

Record PaymentItem : Type := {
  pay_name     : string;
  pay_price    : M;
  pay_quantity : Z
}.

(** A message handed to [natsClient.send]. *)
Inductive Message : Type :=
| ValidateProducts (ids : list string)
| CreatePaymentSession (orderId currency : string) (items : list PaymentItem).

Record World : Type := {
  orders : list OrderRecord;   (* the table behind [this.order] *)
  sent   : list Message        (* oldest first *)
}.

(** The remote side of [natsClient]: its reply to each request, or the error
    it answers with. *)
Record ClientProxy : Type := {
  validate_products      : list string -> RpcError + list Product;
  create_payment_session :
    string -> string -> list PaymentItem -> RpcError + string
}.

(** Modelled from the spec: the Prisma schema is not in the sources, and
    with it the cardinality of the relation [OrderReceipt].  Section 3 gives
    an order at most one receipt and a receipt exactly one order
    ([OneToOne]); [OneToMany] is the other shape the nested [create] of
    [paidOrder] type-checks against. *)
Inductive ReceiptRelation : Type := OneToOne | OneToMany.

Definition Task (A : Type) : Type := World -> Result A * World.

Definition ret {A : Type} (a : A) : Task A := fun w => (inr a, w).

Definition throw {A : Type} (e : Exception) : Task A := fun w => (inl e, w).

Definition bind {A B : Type} (t : Task A) (k : A -> Task B) : Task B :=
  fun w =>
    match t w with
    | (inl e, w') => (inl e, w')
    | (inr a, w') => k a w'
    end.

Definition lift {A : Type} (r : Result A) : Task A := fun w => (r, w).

Notation "x <- t ;; k" := (bind t (fun x => k))
  (at level 61, t at next level, right associativity).

(** ** The store: the calls the service makes on [this.order] *)

Definition has_id (id : string) (r : OrderRecord) : bool :=
  String.eqb (order_id (rec_order r)) id.

(** [where: { status }]: an undefined status filters nothing. *)
Definition where_status (status : option OrderStatus) (r : OrderRecord)
  : bool :=
  match status with
  | None => true
  | Some s => OrderStatus_eqb (order_status (rec_order r)) s
  end.

Definition with_orders (rows : list OrderRecord) (w : World) : World :=
  {| orders := rows; sent := sent w |}.

(** Modelled from the spec: the schema's defaults are not in the sources; an
    order starts [PENDING] (section 4.4), unpaid and without a receipt
    (section 3).  [newId] is the identifier and [now] the creation time the
    store gives the record; the identifier is the primary key. *)
Definition order_create (newId : string) (now : Z) (totalAmount : M)
    (totalItems : Z) (data : list OrderItem) : Task OrderWithItems :=
  fun w =>
    if existsb (has_id newId) (orders w)
    then (inl (PrismaError UniqueConstraint), w)
    else
      let order :=
        {| order_id := newId;
           order_totalAmount := totalAmount;
           order_totalItems := totalItems;
           order_status := PENDING;
           order_paid := false;
           order_paidAt := None;
           order_stripeChargeId := None;
           order_createdAt := now |} in
      (inr {| owi_order := order; owi_OrderItem := data |},
       with_orders
         (orders w ++ [ {| rec_order := order;
                           rec_OrderItem := data;
                           rec_OrderReceipt := [] |} ]) w).

Definition order_count (status : option OrderStatus) : Task Z :=
  fun w => (inr (Z.of_nat (length (filter (where_status status) (orders w)))), w).

(** [findMany({ where, skip, take })], for the non-negative [skip] and [take]
    a [PaginationDto] gives. *)
Definition order_findMany (status : option OrderStatus) (skip take : Z)
  : Task (list Order) :=
  fun w =>
    (inr (map rec_order
            (firstn (Z.to_nat take)
               (skipn (Z.to_nat skip)
                  (filter (where_status status) (orders w))))), w).

Definition order_findFirst (id : string) : Task (option OrderWithItems) :=
  fun w =>
    (inr (match find (has_id id) (orders w) with
          | None => None
          | Some r => Some {| owi_order := rec_order r;
                              owi_OrderItem := rec_OrderItem r |}
          end), w).

Fixpoint replace_first (id : string) (r' : OrderRecord)
    (rows : list OrderRecord) : list OrderRecord :=
  match rows with
  | [] => []
  | r :: rows' =>
      if has_id id r then r' :: rows' else r :: replace_first id r' rows'
  end.

(** [update({ where: { id }, data })]: the record with that key is rewritten
    by [data] and its scalar fields are returned; when there is no such
    record, or a nested write of [data] is rejected, nothing is written. *)
Definition order_update (id : string)
    (data : OrderRecord -> Result OrderRecord) : Task Order :=
  fun w =>
    match find (has_id id) (orders w) with
    | None => (inl (PrismaError RecordNotFound), w)
    | Some r =>
        match data r with
        | inl e => (inl e, w)
        | inr r' =>
            (inr (rec_order r'), with_orders (replace_first id r' (orders w)) w)
        end
    end.

(** [data: { status }]. *)
Definition data_status (status : OrderStatus) (r : OrderRecord)
  : Result OrderRecord :=
  let o := rec_order r in
  inr {| rec_order :=
           {| order_id := order_id o;
              order_totalAmount := order_totalAmount o;
              order_totalItems := order_totalItems o;
              order_status := status;
              order_paid := order_paid o;
              order_paidAt := order_paidAt o;
              order_stripeChargeId := order_stripeChargeId o;
              order_createdAt := order_createdAt o |};
         rec_OrderItem := rec_OrderItem r;
         rec_OrderReceipt := rec_OrderReceipt r |}.

(** The nested write [OrderReceipt: { create: { receiptUrl } }]: a plain
    insertion of a receipt row for the order.  On a one-to-one relation the
    store rejects it when the order already has its receipt. *)
Definition receipt_create (schema : ReceiptRelation) (receiptUrl : string)
    (rows : list OrderReceipt) : Result (list OrderReceipt) :=
  match schema, rows with
  | OneToOne, _ :: _ => inl (PrismaError RelationViolation)
  | _, _ => inr (rows ++ [ {| receipt_url := receiptUrl |} ])
  end.

(** [data: { status: 'PAID', paid: true, paidAt, stripeChargeId,
    OrderReceipt: { create } }]. *)
Definition data_paid (schema : ReceiptRelation) (now : Z)
    (stripePaymentId receiptUrl : string) (r : OrderRecord)
  : Result OrderRecord :=
  let o := rec_order r in
  match receipt_create schema receiptUrl (rec_OrderReceipt r) with
  | inl e => inl e
  | inr receipts =>
      inr {| rec_order :=
               {| order_id := order_id o;
                  order_totalAmount := order_totalAmount o;
                  order_totalItems := order_totalItems o;
                  order_status := PAID;
                  order_paid := true;
                  order_paidAt := Some now;
                  order_stripeChargeId := Some stripePaymentId;
                  order_createdAt := order_createdAt o |};
             rec_OrderItem := rec_OrderItem r;
             rec_OrderReceipt := receipts |}
  end.

(** ** The service *)

(** [products.find(product => product.id === productId)]. *)
Definition find_product (products : list Product) (productId : string)
  : option Product :=
  find (fun product => String.eqb (product_id product) productId) products.

(** A property read on the result of [find]: on [undefined] it throws. *)
Definition prop {A B : Type} (name : string) (get : A -> B) (o : option A)
  : Result B :=
  match o with
  | Some a => inr (get a)
  | None => inl (TypeError name)
  end.

(** [{ ...orderItem, name: products.find(...).name }]. *)
Definition with_name (products : list Product) (orderItem : OrderItem)
  : Result NamedItem :=
  match prop "name" product_name
          (find_product products (oi_productId orderItem)) with
  | inl e => inl e
  | inr name =>
      inr {| ni_price := oi_price orderItem;
             ni_quantity := oi_quantity orderItem;
             ni_productId := oi_productId orderItem;
             ni_name := name |}
  end.

Record Meta : Type := {
  meta_page     : positive;
  meta_total    : Z;
  meta_lastPage : Z
}.

Record Page : Type := {
  page_data : list Order;
  page_meta : Meta
}.

(** [Math.ceil(a / b)] for a positive divisor. *)
Definition Math_ceil_div (a : Z) (b : positive) : Z :=
  let q := a / Z.pos b in
  if a mod Z.pos b =? 0 then q else q + 1.

Section Methods.

(** The client injected into the constructor. *)
Variable natsClient : ClientProxy.

(** [firstValueFrom(natsClient.send({ cmd: 'validate_products' }, { ids })
    .pipe(catchError(err => { throw new RpcException(err) })))]. *)
Definition send_validate_products (ids : list string) : Task (list Product) :=
  fun w =>
    let w' := {| orders := orders w;
                 sent := sent w ++ [ValidateProducts ids] |} in
    match validate_products natsClient ids with
    | inl err => (inl (RpcException err), w')
    | inr products => (inr products, w')
    end.

Definition create (newId : string) (now : Z) (createOrderDto : CreateOrderDto)
  : Task OrderWithProducts :=
  let items := dto_items createOrderDto in
  let ids := map item_productId items in
  products <- send_validate_products ids ;;
  totalAmount <-
    lift (reduce
            (fun acc orderItem =>
               match prop "price" product_price
                       (find_product products (item_productId orderItem)) with
               | inl e => inl e
               | inr price =>
                   inr (madd acc (mscale price (item_quantity orderItem)))
               end)
            items mzero) ;;
  let totalItems :=
    fold_left (fun acc orderItem => acc + item_quantity orderItem) items 0 in
  data <-
    lift (mapE
            (fun item =>
               match prop "price" product_price
                       (find_product products (item_productId item)) with
               | inl e => inl e
               | inr price =>
                   inr {| oi_price := price;
                          oi_quantity := item_quantity item;
                          oi_productId := item_productId item |}
               end)
            items) ;;
  order <- order_create newId now totalAmount totalItems data ;;
  named <- lift (mapE (with_name products) (owi_OrderItem order)) ;;
  ret {| owp_order := owi_order order; owp_OrderItem := named |}.

Definition findAll (paginationDto : PaginationDto) : Task Page :=
  let limit := pg_limit paginationDto in
  let page := pg_page paginationDto in
  let status := pg_status paginationDto in
  totalPages <- order_count status ;;
  let lastPage := Math_ceil_div totalPages limit in
  data <- order_findMany status ((Z.pos page - 1) * Z.pos limit)
            (Z.pos limit) ;;
  ret {| page_data := data;
         page_meta := {| meta_page := page;
                         meta_total := totalPages;
                         meta_lastPage := lastPage |} |}.

Definition findOne (id : string) : Task OrderWithProducts :=
  order <- order_findFirst id ;;
  match order with
  | None =>
      throw (RpcException
               {| rpc_message :=
                    ("Order with id " ++ id ++ " not found")%string;
                  rpc_status := NOT_FOUND |})
  | Some order =>
      let productsIds := map oi_productId (owi_OrderItem order) in
      products <- send_validate_products productsIds ;;
      named <- lift (mapE (with_name products) (owi_OrderItem order)) ;;
      ret {| owp_order := owi_order order; owp_OrderItem := named |}
  end.

(** The method returns what [findOne] built when the status is already the
    requested one, and otherwise the scalar fields [update] returns. *)
Definition changeStatus (changeOrderStatus : ChangeOrderStatus)
  : Task (OrderWithProducts + Order) :=
  let id := cos_id changeOrderStatus in
  let status := cos_status changeOrderStatus in
  order <- findOne id ;;
  if OrderStatus_eqb (order_status (owp_order order)) status
  then ret (inl order)
  else
    updated <- order_update id (data_status status) ;;
    ret (inr updated).

Definition createPaymentSession (order : OrderWithProducts) : Task string :=
  fun w =>
    let items :=
      map (fun item => {| pay_name := ni_name item;
                          pay_price := ni_price item;
                          pay_quantity := ni_quantity item |})
          (owp_OrderItem order) in
    let orderId := order_id (owp_order order) in
    let w' := {| orders := orders w;
                 sent := sent w ++ [CreatePaymentSession orderId "usd" items] |} in
    match create_payment_session natsClient orderId "usd" items with
    | inl err => (inl (RpcException err), w')
    | inr paymentSession => (inr paymentSession, w')
    end.

End Methods.

(** [now] is the value of [new Date()]; [schema] is the cardinality of the
    receipt relation, which the sources do not fix. *)
Definition paidOrder (schema : ReceiptRelation) (now : Z)
    (paidOrderDto : PaidOrderDto) : Task Order :=
  order <- order_update (paid_orderId paidOrderDto)
             (data_paid schema now (paid_stripePaymentId paidOrderDto)
                (paid_receiptUrl paidOrderDto)) ;;
  ret order.

End Service.

Arguments Product M : clear implicits.
Arguments Order M : clear implicits.
Arguments OrderItem M : clear implicits.
Arguments OrderRecord M : clear implicits.
Arguments OrderWithItems M : clear implicits.
Arguments NamedItem M : clear implicits.
Arguments OrderWithProducts M : clear implicits.
Arguments PaymentItem M : clear implicits.
Arguments Message M : clear implicits.
Arguments World M : clear implicits.
Arguments ClientProxy M : clear implicits.
Arguments Page M : clear implicits.
Arguments Task M A : clear implicits.

(** * The vocabulary of the specification *)

Section Vocabulary.

Context {M : Type} {money : Money M}.

Implicit Types (w : World M) (natsClient : ClientProxy M).
Implicit Types (products : list (Product M)) (r : OrderRecord M).

(** A product identifier appears in the catalog's reply. *)
Definition in_reply products (productId : string) : Prop :=
  In productId (map product_id products).

(** The price and the name the catalog's reply gives for an identifier. *)
Definition catalog_price products (productId : string) : M :=
  match find_product products productId with
  | Some product => product_price product
  | None => mzero
  end.

Definition catalog_name products (productId : string) : string :=
  match find_product products productId with
  | Some product => product_name product
  | None => EmptyString
  end.

(** What a reply says apart from the prices: the identifiers, each with its
    name. *)
Definition reply_names products : list (string * string) :=
  map (fun product => (product_id product, product_name product)) products.

(** The sum of a list of amounts, from 0 and from the left. *)
Definition sum_money (amounts : list M) : M := fold_left madd amounts mzero.

Definition sum_Z (l : list Z) : Z := fold_right Z.add 0 l.

(** The record the store holds under an identifier: the one record with
    that identifier when the identifiers are distinct ([stored_of_In]). *)
Definition stored w (id : string) : option (OrderRecord M) :=
  find (has_id id) (orders w).

(** The store after a message has been sent and nothing written. *)
Definition after_send w (m : Message M) : World M :=
  {| orders := orders w; sent := sent w ++ [m] |}.

(** A failure of the client-error class: an [RpcException] whose status is
    a 4xx code. *)
Definition client_error (e : Exception) : Prop :=
  exists payload, e = RpcException payload /\ 400 <= rpc_status payload < 500.

(** A message names an identifier when the identifier occurs in it. *)
Definition mentions (message reference : string) : Prop :=
  exists before after, message = (before ++ reference ++ after)%string.

(** The failure section 7 words for an unknown product: of the client-error
    class, and identifying the missing reference. *)
Definition product_not_found (missing : string) (e : Exception) : Prop :=
  exists payload,
    e = RpcException payload /\
    400 <= rpc_status payload < 500 /\
    mentions (rpc_message payload) missing.

(** Every [validate_products] request in a log carries distinct ids. *)
Definition sends_distinct_ids (log : list (Message M)) : Prop :=
  forall ids, In (ValidateProducts ids) log -> NoDup ids.


(** After [changeStatus] the store holds the order with the status asked. *)
Definition status_updated natsClient (id : string) (status : OrderStatus) w
  : Prop :=
  exists r',
    stored (snd (changeStatus natsClient
                   {| cos_id := id; cos_status := status |} w)) id = Some r' /\
    order_status (rec_order r') = status.

(** The receipts the store holds for an order. *)
Definition receipts w (id : string) : list OrderReceipt :=
  match stored w id with
  | Some r => rec_OrderReceipt r
  | None => []
  end.

(** Two applications of [paidOrder] both succeed and leave the order paid,
    [PAID] and with exactly one receipt. *)
Definition paid_twice_as_once (schema : ReceiptRelation) (now now' : Z)
    (paidOrderDto : PaidOrderDto) w : Prop :=
  exists paid w1 paid' w2,
    paidOrder schema now paidOrderDto w = (inr paid, w1) /\
    paidOrder schema now' paidOrderDto w1 = (inr paid', w2) /\
    order_paid paid' = true /\
    order_status paid' = PAID /\
    length (receipts w2 (paid_orderId paidOrderDto)) = 1%nat.

(** The item rows [create] hands to the store when every product is priced
    by the reply. *)
Definition priced_items products (items : list OrderItemDto)
  : list (OrderItem M) :=
  map (fun item => {| oi_price := catalog_price products (item_productId item);
                      oi_quantity := item_quantity item;
                      oi_productId := item_productId item |}) items.

(** The items of a stored order with the names of a reply merged in. *)
Definition named_items products (items : list (OrderItem M))
  : list (NamedItem M) :=
  map (fun orderItem =>
         {| ni_price := oi_price orderItem;
            ni_quantity := oi_quantity orderItem;
            ni_productId := oi_productId orderItem;
            ni_name := catalog_name products (oi_productId orderItem) |})
      items.

(** The record of [r] with its status set. *)
Definition with_status (status : OrderStatus) r : OrderRecord M :=
  match data_status status r with
  | inr r' => r'
  | inl _ => r
  end.

(** The record [paidOrder] writes on its first application. *)
Definition paid_record (now : Z) (paidOrderDto : PaidOrderDto) r
  : OrderRecord M :=
  let o := rec_order r in
  {| rec_order :=
       {| order_id := order_id o;
          order_totalAmount := order_totalAmount o;
          order_totalItems := order_totalItems o;
          order_status := PAID;
          order_paid := true;
          order_paidAt := Some now;
          order_stripeChargeId := Some (paid_stripePaymentId paidOrderDto);
          order_createdAt := order_createdAt o |};
     rec_OrderItem := rec_OrderItem r;
     rec_OrderReceipt :=
       rec_OrderReceipt r ++ [ {| receipt_url := paid_receiptUrl paidOrderDto |} ] |}.

(** The identifiers of the stored orders; as the primary key they are
    pairwise distinct. *)
Definition order_ids w : list string :=
  map (fun r => order_id (rec_order r)) (orders w).

Definition unique_ids w : Prop := NoDup (order_ids w).

(** The record [create] stores when every product of the request is priced
    by the reply. *)
Definition created_record (newId : string) (now : Z) products
    (items : list OrderItemDto) : OrderRecord M :=
  {| rec_order :=
       {| order_id := newId;
          order_totalAmount :=
            sum_money
              (map (fun item =>
                      mscale (catalog_price products (item_productId item))
                             (item_quantity item)) items);
          order_totalItems := sum_Z (map item_quantity items);
          order_status := PENDING;
          order_paid := false;
          order_paidAt := None;
          order_stripeChargeId := None;
          order_createdAt := now |};
     rec_OrderItem := priced_items products items;
     rec_OrderReceipt := [] |}.

(** The items a payment session is asked for: name, price and quantity of
    each item of the order. *)
Definition payment_items (items : list (NamedItem M)) : list (PaymentItem M) :=
  map (fun item => {| pay_name := ni_name item;
                      pay_price := ni_price item;
                      pay_quantity := ni_quantity item |}) items.

(** The invariant of section 3 on the derived totals of a stored order. *)
Definition totals_ok r : Prop :=
  order_totalAmount (rec_order r)
  = sum_money (map (fun orderItem =>
                      mscale (oi_price orderItem) (oi_quantity orderItem))
                   (rec_OrderItem r)) /\
  order_totalItems (rec_order r) = sum_Z (map oi_quantity (rec_OrderItem r)).

(** A paid order carries the evidence of its payment. *)
Definition paid_ok r : Prop :=
  order_paid (rec_order r) = true ->
  order_paidAt (rec_order r) <> None /\
  order_stripeChargeId (rec_order r) <> None /\
  rec_OrderReceipt r <> [].

(** The data of the [n]-th page of a listing. *)
Definition page_of (limit : positive) (status : option OrderStatus) w
    (n : nat) : list (Order M) :=
  match fst (findAll {| pg_page := Pos.of_nat n;
                        pg_limit := limit;
                        pg_status := status |} w) with
  | inr result => page_data result
  | inl _ => []
  end.

End Vocabulary.

(** * Scenarios

    Concrete catalogs, stores and requests, with amounts in [Z]. *)

(** A catalog that answers with the products it knows among those asked. *)
Definition catalog_service (known : list (Product Z)) : ClientProxy Z :=
  {| validate_products := fun ids =>
       inr (filter (fun product =>
                      existsb (String.eqb (product_id product)) ids) known);
     create_payment_session := fun _ _ _ => inr "session"%string |}.

(** A catalog that cannot be reached. *)
Definition catalog_down : ClientProxy Z :=
  {| validate_products := fun _ =>
       inl {| rpc_message := "catalog unreachable"; rpc_status := 503 |};
     create_payment_session := fun _ _ _ =>
       inl {| rpc_message := "payments unreachable"; rpc_status := 503 |} |}.

Definition widget : Product Z :=
  {| product_id := "p1"; product_name := "Widget"; product_price := 5 |}.

Definition gadget : Product Z :=
  {| product_id := "p2"; product_name := "Gadget"; product_price := 7 |}.

(** The same two products after the catalog has repriced them. *)
Definition widget_repriced : Product Z :=
  {| product_id := "p1"; product_name := "Widget"; product_price := 9 |}.

Definition gadget_repriced : Product Z :=
  {| product_id := "p2"; product_name := "Gadget"; product_price := 1 |}.

Definition empty_world : World Z := {| orders := []; sent := [] |}.

Definition two_widgets : CreateOrderDto :=
  {| dto_items := [ {| item_productId := "p1"; item_quantity := 2 |} ] |}.

Definition widgets_and_gadgets : CreateOrderDto :=
  {| dto_items := [ {| item_productId := "p1"; item_quantity := 2 |};
                    {| item_productId := "p2"; item_quantity := 3 |} ] |}.

Definition widgets_twice : CreateOrderDto :=
  {| dto_items := [ {| item_productId := "p1"; item_quantity := 2 |};
                    {| item_productId := "p1"; item_quantity := 1 |} ] |}.

(** The store after order [o1] for widgets and gadgets has been created. *)
Definition world_o1 : World Z :=
  snd (create (catalog_service [widget; gadget]) "o1" 100
         widgets_and_gadgets empty_world).

Definition record_o1 : OrderRecord Z :=
  {| rec_order :=
       {| order_id := "o1";
          order_totalAmount := 31;
          order_totalItems := 5;
          order_status := PENDING;
          order_paid := false;
          order_paidAt := None;
          order_stripeChargeId := None;
          order_createdAt := 100 |};
     rec_OrderItem :=
       [ {| oi_price := 5; oi_quantity := 2; oi_productId := "p1" |};
         {| oi_price := 7; oi_quantity := 3; oi_productId := "p2" |} ];
     rec_OrderReceipt := [] |}.

Definition payment_o1 : PaidOrderDto :=
  {| paid_orderId := "o1";
     paid_stripePaymentId := "ch_1";
     paid_receiptUrl := "https://pay.example/receipt/1" |}.

(** Thirty orders, [a] onwards; every sixth is [PAID] and the other
    twenty-five are [PENDING]. *)
Definition order_number (n : nat) : OrderRecord Z :=
  {| rec_order :=
       {| order_id := String (Ascii.ascii_of_nat (97 + n)) EmptyString;
          order_totalAmount := 0;
          order_totalItems := 0;
          order_status := if Nat.eqb (Nat.modulo n 6) 5 then PAID else PENDING;
          order_paid := Nat.eqb (Nat.modulo n 6) 5;
          order_paidAt := None;
          order_stripeChargeId := None;
          order_createdAt := Z.of_nat n |};
     rec_OrderItem := [];
     rec_OrderReceipt := [] |}.

Definition world_30 : World Z :=
  {| orders := map order_number (seq 0 30); sent := [] |}.

Definition second_page : PaginationDto :=
  {| pg_page := 2; pg_limit := 10; pg_status := Some PENDING |}.

(** The store after a second order, [o2], for two widgets. *)
Definition world_two : World Z :=
  snd (create (catalog_service [widget; gadget]) "o2" 150 two_widgets
         world_o1).

Definition record_o2 : OrderRecord Z :=
  {| rec_order :=
       {| order_id := "o2";
          order_totalAmount := 10;
          order_totalItems := 2;
          order_status := PENDING;
          order_paid := false;
          order_paidAt := None;
          order_stripeChargeId := None;
          order_createdAt := 150 |};
     rec_OrderItem :=
       [ {| oi_price := 5; oi_quantity := 2; oi_productId := "p1" |} ];
     rec_OrderReceipt := [] |}.

Definition no_items : CreateOrderDto := {| dto_items := [] |}.

Definition third_page : PaginationDto :=
  {| pg_page := 3; pg_limit := 10; pg_status := Some PENDING |}.

Definition fourth_page : PaginationDto :=
  {| pg_page := 4; pg_limit := 10; pg_status := Some PENDING |}.

(** The store after order [o1] has been paid. *)
Definition world_paid : World Z :=
  snd (paidOrder OneToOne 200 payment_o1 world_o1).

Definition record_paid : OrderRecord Z :=
  {| rec_order :=
       {| order_id := "o1";
          order_totalAmount := 31;
          order_totalItems := 5;
          order_status := PAID;
          order_paid := true;
          order_paidAt := Some 200;
          order_stripeChargeId := Some "ch_1"%string;
          order_createdAt := 100 |};
     rec_OrderItem := rec_OrderItem record_o1;
     rec_OrderReceipt :=
       [ {| receipt_url := "https://pay.example/receipt/1" |} ] |}.

(** The store after order [o1] has been cancelled instead. *)
Definition world_cancelled : World Z :=
  snd (changeStatus (catalog_service [widget; gadget])
         {| cos_id := "o1"; cos_status := CANCELLED |} world_o1).

Definition record_cancelled : OrderRecord Z :=
  {| rec_order :=
       {| order_id := "o1";
          order_totalAmount := 31;
          order_totalItems := 5;
          order_status := CANCELLED;
          order_paid := false;
          order_paidAt := None;
          order_stripeChargeId := None;
          order_createdAt := 100 |};
     rec_OrderItem := rec_OrderItem record_o1;
     rec_OrderReceipt := [] |}.

(** * Properties *)

Section Properties.

Context {M : Type} {money : Money M}.

Implicit Types (w : World M) (natsClient : ClientProxy M).
Implicit Types (products : list (Product M)) (r : OrderRecord M).

(** ** Lookups in the catalog's reply *)

Lemma find_product_in_reply products productId :
  in_reply products productId ->
  exists product,
    find_product products productId = Some product /\
    product_id product = productId.
Proof.
  unfold in_reply, find_product.
  induction products as [|p ps IH]; simpl; [tauto|].
  intros [Hp | Hin].
  - exists p. rewrite Hp, String.eqb_refl. split; reflexivity.
  - destruct (String.eqb_spec (product_id p) productId) as [He | _].
    + exists p. split; [reflexivity | exact He].
    + apply IH, Hin.
Qed.

Lemma find_product_not_in_reply products productId :
  ~ in_reply products productId ->
  find_product products productId = None.
Proof.
  unfold in_reply, find_product.
  induction products as [|p ps IH]; simpl; [reflexivity|].
  intros Hn.
  destruct (String.eqb_spec (product_id p) productId) as [He | _].
  - exfalso. apply Hn. left. exact He.
  - apply IH. intros Hin. apply Hn. right. exact Hin.
Qed.

Lemma find_product_Some products productId product :
  find_product products productId = Some product ->
  In product products /\ product_id product = productId.
Proof.
  unfold find_product. intros H.
  apply find_some in H. destruct H as [Hin He].
  apply String.eqb_eq in He. split; assumption.
Qed.

Lemma prop_price_in_reply products productId :
  in_reply products productId ->
  prop "price" product_price (find_product products productId)
  = inr (catalog_price products productId).
Proof.
  intros H. unfold catalog_price.
  destruct (find_product_in_reply _ _ H) as [p [-> _]]. reflexivity.
Qed.

Lemma with_name_in_reply products (orderItem : OrderItem M) :
  in_reply products (oi_productId orderItem) ->
  with_name products orderItem
  = inr {| ni_price := oi_price orderItem;
           ni_quantity := oi_quantity orderItem;
           ni_productId := oi_productId orderItem;
           ni_name := catalog_name products (oi_productId orderItem) |}.
Proof.
  intros H. unfold with_name, catalog_name.
  destruct (find_product_in_reply _ _ H) as [p [-> _]]. reflexivity.
Qed.

Lemma with_name_not_in_reply products (orderItem : OrderItem M) :
  ~ in_reply products (oi_productId orderItem) ->
  with_name products orderItem = inl (TypeError "name").
Proof.
  intros H. unfold with_name.
  rewrite (find_product_not_in_reply _ _ H). reflexivity.
Qed.

Lemma with_name_reply_names products products' (orderItem : OrderItem M) :
  reply_names products = reply_names products' ->
  with_name products orderItem = with_name products' orderItem.
Proof.
  unfold with_name, find_product, reply_names.
  revert products'.
  induction products as [|p ps IH]; intros [|p' ps'] H; simpl in *;
    try discriminate; [reflexivity|].
  injection H as Hid Hname Hrest.
  rewrite <- Hid.
  destruct (String.eqb (product_id p) (oi_productId orderItem)).
  - simpl. rewrite Hname. reflexivity.
  - apply IH. exact Hrest.
Qed.

(** ** Traversals that may throw *)

Lemma mapE_ext {A B : Type} (f g : A -> Result B) (l : list A) :
  (forall x, f x = g x) -> mapE f l = mapE g l.
Proof.
  intros H. induction l as [|x l IH]; simpl; [reflexivity|].
  rewrite H, IH. reflexivity.
Qed.

Lemma mapE_total {A B : Type} (f : A -> Result B) (g : A -> B) (l : list A) :
  Forall (fun x => f x = inr (g x)) l ->
  mapE f l = inr (map g l).
Proof.
  induction 1 as [|x l Hx _ IH]; simpl; [reflexivity|].
  rewrite Hx, IH. reflexivity.
Qed.

Lemma mapE_throws {A B : Type} (f : A -> Result B) (e : Exception)
    (l : list A) :
  Forall (fun x => (exists y, f x = inr y) \/ f x = inl e) l ->
  Exists (fun x => f x = inl e) l ->
  mapE f l = inl e.
Proof.
  intros Hall Hex. induction Hall as [|x l Hx Hall IH]; simpl.
  - inversion Hex.
  - destruct Hx as [[y Hy] | He].
    + rewrite Hy. inversion Hex as [? ? Hx0 | ? ? Hl]; subst.
      * congruence.
      * rewrite (IH Hl). reflexivity.
    + rewrite He. reflexivity.
Qed.

Lemma reduce_total {A B : Type} (f : B -> A -> Result B) (g : B -> A -> B)
    (l : list A) :
  Forall (fun x => forall acc, f acc x = inr (g acc x)) l ->
  forall acc, reduce f l acc = inr (fold_left g l acc).
Proof.
  induction 1 as [|x l Hx _ IH]; intros acc; simpl; [reflexivity|].
  rewrite Hx. apply IH.
Qed.

Lemma reduce_throws {A B : Type} (f : B -> A -> Result B) (e : Exception)
    (l : list A) :
  Forall (fun x => forall acc, (exists acc', f acc x = inr acc')
                               \/ f acc x = inl e) l ->
  Exists (fun x => forall acc, f acc x = inl e) l ->
  forall acc, reduce f l acc = inl e.
Proof.
  intros Hall Hex. induction Hall as [|x l Hx Hall IH]; intros acc; simpl.
  - inversion Hex.
  - destruct (Hx acc) as [[acc' Ha] | He].
    + rewrite Ha. inversion Hex as [? ? Hx0 | ? ? Hl]; subst.
      * rewrite Hx0 in Ha. discriminate.
      * apply (IH Hl).
    + rewrite He. reflexivity.
Qed.

Lemma fold_left_madd_map {A : Type} (h : A -> M) (l : list A) (acc : M) :
  fold_left (fun a x => madd a (h x)) l acc = fold_left madd (map h l) acc.
Proof.
  revert acc. induction l as [|x l IH]; intros acc; simpl; [reflexivity|].
  apply IH.
Qed.

Lemma fold_left_quantity {A : Type} (q : A -> Z) (l : list A) (acc : Z) :
  fold_left (fun a x => a + q x) l acc = acc + sum_Z (map q l).
Proof.
  revert acc. induction l as [|x l IH]; intros acc; simpl; [lia|].
  rewrite IH. lia.
Qed.

Lemma in_reply_dec products productId :
  {in_reply products productId} + {~ in_reply products productId}.
Proof. apply in_dec, string_dec. Qed.

(** ** create *)

Lemma fresh_id_not_stored w (newId : string) :
  (forall r, In r (orders w) -> order_id (rec_order r) <> newId) ->
  existsb (has_id newId) (orders w) = false.
Proof.
  intros H. induction (orders w) as [|r rows IH]; simpl; [reflexivity|].
  unfold has_id at 1.
  destruct (String.eqb_spec (order_id (rec_order r)) newId) as [He | _].
  - exfalso. apply (H r); [left; reflexivity | exact He].
  - apply IH. intros r' Hin. apply H. right. exact Hin.
Qed.

(** C4. When every productId of the request appears in the catalog's reply,
    [create] returns an order and persists it, its [totalAmount] is the sum
    over the items of the catalog's price times the quantity, and its
    [totalItems] is the sum of the quantities. *)
Theorem create_totals natsClient (newId : string) (now : Z)
    (createOrderDto : CreateOrderDto) w products :
  let items := dto_items createOrderDto in
  validate_products natsClient (map item_productId items) = inr products ->
  Forall (fun item => in_reply products (item_productId item)) items ->
  (forall r, In r (orders w) -> order_id (rec_order r) <> newId) ->
  exists order w',
    create natsClient newId now createOrderDto w = (inr order, w') /\
    order_totalAmount (owp_order order)
    = sum_money
        (map (fun item =>
                mscale (catalog_price products (item_productId item))
                       (item_quantity item)) items) /\
    order_totalItems (owp_order order) = sum_Z (map item_quantity items) /\
    orders w'
    = orders w ++ [ {| rec_order := owp_order order;
                       rec_OrderItem := priced_items products items;
                       rec_OrderReceipt := [] |} ].
Proof.
  intros items Hreply Hknown Hfresh.
  unfold create, bind, send_validate_products, lift. fold items.
  rewrite Hreply.
  rewrite (reduce_total _
             (fun acc item =>
                madd acc (mscale (catalog_price products (item_productId item))
                                 (item_quantity item)))).
  2:{ eapply Forall_impl; [|exact Hknown]. intros item Hin acc. simpl in Hin.
      rewrite (prop_price_in_reply _ _ Hin). reflexivity. }
  rewrite (mapE_total _
             (fun item =>
                {| oi_price := catalog_price products (item_productId item);
                   oi_quantity := item_quantity item;
                   oi_productId := item_productId item |})).
  2:{ eapply Forall_impl; [|exact Hknown]. intros item Hin. simpl in Hin.
      rewrite (prop_price_in_reply _ _ Hin). reflexivity. }
  unfold order_create. simpl orders.
  rewrite (fresh_id_not_stored w newId Hfresh). simpl owi_OrderItem.
  rewrite (mapE_total (with_name products)
             (fun orderItem =>
                {| ni_price := oi_price orderItem;
                   ni_quantity := oi_quantity orderItem;
                   ni_productId := oi_productId orderItem;
                   ni_name := catalog_name products (oi_productId orderItem) |})).
  2:{ apply Forall_map. eapply Forall_impl; [|exact Hknown].
      intros item Hin. simpl in Hin. apply with_name_in_reply. exact Hin. }
  unfold ret. eexists. eexists. split; [reflexivity|]. simpl.
  split; [apply fold_left_madd_map|].
  split; [rewrite fold_left_quantity; lia | reflexivity].
Qed.

(** C1, as the code has it.  When the catalog's reply lacks a productId of
    the request, [create] fails with the [TypeError] of the unguarded
    [find(...).price], which is not a failure of the client-error class, and
    the store is left as it was: no order and no item is written. *)
Theorem create_unknown_product natsClient (newId : string) (now : Z)
    (createOrderDto : CreateOrderDto) w products :
  let items := dto_items createOrderDto in
  validate_products natsClient (map item_productId items) = inr products ->
  Exists (fun item => ~ in_reply products (item_productId item)) items ->
  create natsClient newId now createOrderDto w
  = (inl (TypeError "price"),
     after_send w (ValidateProducts (map item_productId items))) /\
  orders (snd (create natsClient newId now createOrderDto w)) = orders w /\
  ~ client_error (TypeError "price").
Proof.
  intros items Hreply Hmissing.
  assert (Hrun : create natsClient newId now createOrderDto w
                 = (inl (TypeError "price"),
                    after_send w (ValidateProducts (map item_productId items)))).
  { unfold create, bind, send_validate_products, lift. fold items.
    rewrite Hreply.
    rewrite (reduce_throws _ (TypeError "price")); [reflexivity | |].
    - apply Forall_forall. intros item _ acc.
      destruct (in_reply_dec products (item_productId item)) as [Hin | Hout].
      + left. rewrite (prop_price_in_reply _ _ Hin). eexists. reflexivity.
      + right. rewrite (find_product_not_in_reply _ _ Hout). reflexivity.
    - eapply Exists_impl; [|exact Hmissing]. intros item Hout acc. simpl in Hout.
      rewrite (find_product_not_in_reply _ _ Hout). reflexivity. }
  split; [exact Hrun|]. split.
  - rewrite Hrun. reflexivity.
  - intros [payload [He _]]. discriminate He.
Qed.

(** C3, as the code has it.  [create] sends the catalog exactly one
    [validate_products] request, and its [ids] are the productIds of the
    items one for one and in order, repeated as often as they occur. *)
Theorem create_sends_item_ids natsClient (newId : string) (now : Z)
    (createOrderDto : CreateOrderDto) w :
  sent (snd (create natsClient newId now createOrderDto w))
  = sent w ++ [ValidateProducts
                 (map item_productId (dto_items createOrderDto))].
Proof.
  unfold create, bind, send_validate_products, lift, order_create, ret.
  destruct (validate_products natsClient _) as [err | products];
    [reflexivity|].
  destruct (reduce _ _ _) as [e | totalAmount]; [reflexivity|].
  destruct (mapE _ _) as [e | data]; [reflexivity|].
  simpl orders.
  destruct (existsb _ _); [reflexivity|].
  destruct (mapE _ _); reflexivity.
Qed.

(** ** findOne *)

Lemma stored_none w (id : string) :
  (forall r, In r (orders w) -> order_id (rec_order r) <> id) ->
  stored w id = None.
Proof.
  intros H. unfold stored.
  destruct (find (has_id id) (orders w)) as [r|] eqn:E; [|reflexivity].
  apply find_some in E. destruct E as [Hin He].
  apply String.eqb_eq in He. exfalso. exact (H r Hin He).
Qed.

Lemma stored_some w (id : string) r :
  stored w id = Some r ->
  In r (orders w) /\ order_id (rec_order r) = id.
Proof.
  unfold stored. intros E. apply find_some in E. destruct E as [Hin He].
  apply String.eqb_eq in He. split; assumption.
Qed.

(** What [findOne] does on a stored order, by the reply of the catalog. *)
Lemma findOne_stored natsClient (id : string) w r :
  stored w id = Some r ->
  findOne natsClient id w
  = let ids := map oi_productId (rec_OrderItem r) in
    let w' := after_send w (ValidateProducts ids) in
    match validate_products natsClient ids with
    | inl err => (inl (RpcException err), w')
    | inr products =>
        match mapE (with_name products) (rec_OrderItem r) with
        | inl e => (inl e, w')
        | inr named =>
            (inr {| owp_order := rec_order r; owp_OrderItem := named |}, w')
        end
    end.
Proof.
  unfold stored. intros E.
  unfold findOne, bind, order_findFirst, send_validate_products, lift, ret.
  rewrite E. simpl.
  destruct (validate_products natsClient _) as [err | products];
    [reflexivity|].
  destruct (mapE _ _); reflexivity.
Qed.

Lemma findOne_keeps_orders natsClient (id : string) w :
  orders (snd (findOne natsClient id w)) = orders w.
Proof.
  destruct (stored w id) as [r|] eqn:E.
  - rewrite (findOne_stored _ _ _ _ E). simpl.
    destruct (validate_products natsClient _); [reflexivity|].
    destruct (mapE _ _); reflexivity.
  - unfold stored in E.
    unfold findOne, bind, order_findFirst, throw. rewrite E. reflexivity.
Qed.

Lemma findOne_named natsClient (id : string) w r products :
  stored w id = Some r ->
  validate_products natsClient (map oi_productId (rec_OrderItem r))
  = inr products ->
  Forall (fun orderItem => in_reply products (oi_productId orderItem))
         (rec_OrderItem r) ->
  findOne natsClient id w
  = (inr {| owp_order := rec_order r;
            owp_OrderItem := named_items products (rec_OrderItem r) |},
     after_send w (ValidateProducts (map oi_productId (rec_OrderItem r)))).
Proof.
  intros E Hreply Hknown.
  rewrite (findOne_stored _ _ _ _ E). simpl. rewrite Hreply.
  unfold named_items. erewrite mapE_total; [reflexivity|].
  eapply Forall_impl; [|exact Hknown].
  intros orderItem Hin. apply with_name_in_reply. exact Hin.
Qed.

(** C9. For an id with no order record, [findOne] throws the structured
    failure [{ message, status }] whose status is [NOT_FOUND] and whose
    message quotes the id; it does nothing else, whatever the catalog would
    answer. *)
Theorem findOne_not_found natsClient (id : string) w :
  (forall r, In r (orders w) -> order_id (rec_order r) <> id) ->
  exists message,
    findOne natsClient id w
    = (inl (RpcException {| rpc_message := message;
                            rpc_status := NOT_FOUND |}), w) /\
    message = ("Order with id " ++ id ++ " not found")%string /\
    mentions message id.
Proof.
  intros H. apply stored_none in H. unfold stored in H.
  eexists. split; [|split; [reflexivity|]].
  - unfold findOne, bind, order_findFirst, throw. rewrite H. reflexivity.
  - exists "Order with id "%string, " not found"%string. reflexivity.
Qed.

(** C8. For a stored order whose productIds all appear in the current reply
    of the catalog, [findOne] returns the order with its items in order,
    each with the name the reply gives its productId and with the price and
    quantity that are stored; a catalog whose reply differs only in its
    prices makes [findOne] return the same order. *)
Theorem findOne_names_and_snapshot natsClient (id : string) w r products :
  stored w id = Some r ->
  validate_products natsClient (map oi_productId (rec_OrderItem r))
  = inr products ->
  Forall (fun orderItem => in_reply products (oi_productId orderItem))
         (rec_OrderItem r) ->
  exists order w',
    findOne natsClient id w = (inr order, w') /\
    owp_order order = rec_order r /\
    Forall2
      (fun orderItem named =>
         ni_price named = oi_price orderItem /\
         ni_quantity named = oi_quantity orderItem /\
         ni_productId named = oi_productId orderItem /\
         exists product,
           find_product products (oi_productId orderItem) = Some product /\
           ni_name named = product_name product)
      (rec_OrderItem r) (owp_OrderItem order) /\
    map ni_price (owp_OrderItem order) = map oi_price (rec_OrderItem r) /\
    (forall natsClient' products',
       validate_products natsClient' (map oi_productId (rec_OrderItem r))
       = inr products' ->
       reply_names products' = reply_names products ->
       fst (findOne natsClient' id w) = inr order).
Proof.
  intros E Hreply Hknown.
  eexists. eexists. split; [apply (findOne_named _ _ _ _ _ E Hreply Hknown)|].
  simpl. split; [reflexivity|]. unfold named_items.
  split; [|split]; cycle 2.
  { intros natsClient' products' Hreply' Hnames.
    rewrite (findOne_stored _ _ _ _ E). simpl. rewrite Hreply'.
    rewrite (mapE_ext _ (with_name products))
      by (intros x; apply with_name_reply_names; exact Hnames).
    erewrite mapE_total; [reflexivity|].
    eapply Forall_impl; [|exact Hknown].
    intros orderItem Hin. apply with_name_in_reply. exact Hin. }
  - clear E Hreply.
    induction Hknown as [|orderItem items Hin _ IH]; simpl; constructor.
    + simpl. repeat split.
      destruct (find_product_in_reply _ _ Hin) as [product [Hf _]].
      exists product. split; [exact Hf|].
      unfold catalog_name. rewrite Hf. reflexivity.
    + exact IH.
  - rewrite map_map. reflexivity.
Qed.

(** C10. For a stored order, when the reply of the catalog lacks the
    productId of one of its items, [findOne] returns no order: it fails with
    the [TypeError] of the unguarded [find(...).name]. *)
Theorem findOne_missing_product natsClient (id : string) w r products :
  stored w id = Some r ->
  validate_products natsClient (map oi_productId (rec_OrderItem r))
  = inr products ->
  Exists (fun orderItem => ~ in_reply products (oi_productId orderItem))
         (rec_OrderItem r) ->
  fst (findOne natsClient id w) = inl (TypeError "name").
Proof.
  intros E Hreply Hmissing.
  rewrite (findOne_stored _ _ _ _ E). simpl. rewrite Hreply.
  rewrite (mapE_throws _ (TypeError "name")); [reflexivity | |].
  - apply Forall_forall. intros orderItem _.
    destruct (in_reply_dec products (oi_productId orderItem)) as [Hin | Hout].
    + left. rewrite (with_name_in_reply _ _ Hin). eexists. reflexivity.
    + right. apply with_name_not_in_reply. exact Hout.
  - eapply Exists_impl; [|exact Hmissing]. intros orderItem Hout.
    apply with_name_not_in_reply. exact Hout.
Qed.

(** ** changeStatus *)

Lemma OrderStatus_eqb_spec (a b : OrderStatus) :
  reflect (a = b) (OrderStatus_eqb a b).
Proof. destruct a, b; simpl; constructor; congruence. Qed.

Lemma OrderStatus_eqb_refl (a : OrderStatus) : OrderStatus_eqb a a = true.
Proof. destruct a; reflexivity. Qed.

Lemma find_replace_first (id : string) r' (rows : list (OrderRecord M)) r :
  find (has_id id) rows = Some r ->
  has_id id r' = true ->
  find (has_id id) (replace_first id r' rows) = Some r'.
Proof.
  intros Hfind Hid. induction rows as [|x rows IH]; simpl in *; [discriminate|].
  destruct (has_id id x) eqn:Ex; simpl.
  - rewrite Hid. reflexivity.
  - rewrite Ex. apply IH. exact Hfind.
Qed.

Lemma order_update_status (id : string) (status : OrderStatus) w r :
  stored w id = Some r ->
  order_update id (data_status status) w
  = (inr (rec_order (with_status status r)),
     with_orders (replace_first id (with_status status r) (orders w)) w).
Proof.
  unfold stored, order_update. intros E. rewrite E. reflexivity.
Qed.


(** C6, as the code has it.  For a stored order and a status other than its
    current one, when the catalog names every product of the order,
    [changeStatus] returns the order's fields with the new status and the
    store holds the order with that status; a later [findOne], whatever
    the catalog then is, returns the order only with that status, and does
    return it when the catalog names every product. *)
Theorem changeStatus_new_status natsClient (id : string)
    (status : OrderStatus) w r products :
  stored w id = Some r ->
  status <> order_status (rec_order r) ->
  validate_products natsClient (map oi_productId (rec_OrderItem r))
  = inr products ->
  Forall (fun orderItem => in_reply products (oi_productId orderItem))
         (rec_OrderItem r) ->
  exists updated w',
    changeStatus natsClient {| cos_id := id; cos_status := status |} w
    = (inr (inr updated), w') /\
    order_status updated = status /\
    stored w' id = Some (with_status status r) /\
    rec_order (with_status status r) = updated /\
    rec_OrderItem (with_status status r) = rec_OrderItem r /\
    (forall natsClient' order,
       fst (findOne natsClient' id w') = inr order ->
       order_status (owp_order order) = status) /\
    (forall natsClient' products',
       validate_products natsClient' (map oi_productId (rec_OrderItem r))
       = inr products' ->
       Forall (fun orderItem => in_reply products' (oi_productId orderItem))
              (rec_OrderItem r) ->
       exists order,
         fst (findOne natsClient' id w') = inr order /\
         order_status (owp_order order) = status).
Proof.
  intros E Hneq Hreply Hknown.
  assert (Hid : has_id id (with_status status r) = true).
  { destruct (stored_some _ _ _ E) as [_ Hr]. unfold has_id. simpl.
    rewrite Hr. apply String.eqb_refl. }
  set (w1 := after_send w (ValidateProducts (map oi_productId (rec_OrderItem r)))).
  assert (E1 : stored w1 id = Some r) by exact E.
  set (w' := with_orders (replace_first id (with_status status r) (orders w1)) w1).
  assert (E' : stored w' id = Some (with_status status r)).
  { unfold stored, w'. simpl. eapply find_replace_first; [exact E | exact Hid]. }
  exists (rec_order (with_status status r)), w'.
  split.
  { unfold changeStatus, bind. simpl cos_id. simpl cos_status.
    rewrite (findOne_named _ _ _ _ _ E Hreply Hknown). fold w1.
    cbn [cos_id cos_status owp_order].
    destruct (OrderStatus_eqb_spec (order_status (rec_order r)) status)
      as [He | _]; [congruence|].
    rewrite (order_update_status _ _ _ _ E1). reflexivity. }
  split; [reflexivity|]. split; [exact E'|].
  split; [reflexivity|]. split; [reflexivity|]. split.
  - intros natsClient' order Hfind.
    rewrite (findOne_stored _ _ _ _ E') in Hfind. simpl in Hfind.
    destruct (validate_products natsClient' _); [discriminate|].
    destruct (mapE _ _); [discriminate|].
    simpl in Hfind. injection Hfind as <-. reflexivity.
  - intros natsClient' products' Hreply' Hknown'.
    eexists. split.
    + rewrite (findOne_named natsClient' _ _ _ products' E');
        [reflexivity | exact Hreply' | exact Hknown'].
    + reflexivity.
Qed.

(** ** The primary key *)

Lemma stored_of_In w r :
  unique_ids w ->
  In r (orders w) ->
  stored w (order_id (rec_order r)) = Some r.
Proof.
  unfold unique_ids, order_ids, stored.
  induction (orders w) as [|x rows IH]; simpl; intros Hnd Hin; [tauto|].
  inversion Hnd as [|? ? Hx Hrows]; subst.
  unfold has_id at 1.
  destruct (String.eqb_spec (order_id (rec_order x)) (order_id (rec_order r)))
    as [He | Hne].
  - destruct Hin as [-> | Hin]; [reflexivity|].
    exfalso. apply Hx. rewrite He.
    apply (in_map (fun r0 => order_id (rec_order r0))). exact Hin.
  - destruct Hin as [-> | Hin]; [congruence|]. apply IH; assumption.
Qed.

Lemma NoDup_snoc {A : Type} (l : list A) (x : A) :
  NoDup l -> ~ In x l -> NoDup (l ++ [x]).
Proof.
  induction 1 as [|y l Hy _ IH]; simpl; intros Hx.
  - constructor; [tauto | constructor].
  - constructor.
    + rewrite in_app_iff. simpl. intros [H | [H | []]]; [tauto|].
      apply Hx. left. symmetry. exact H.
    + apply IH. intros H. apply Hx. right. exact H.
Qed.

Lemma replace_first_ids (id : string) r' (rows : list (OrderRecord M)) :
  order_id (rec_order r') = id ->
  map (fun r => order_id (rec_order r)) (replace_first id r' rows)
  = map (fun r => order_id (rec_order r)) rows.
Proof.
  intros Hid. induction rows as [|x rows IH]; simpl; [reflexivity|].
  unfold has_id at 1.
  destruct (String.eqb_spec (order_id (rec_order x)) id) as [He | _]; simpl.
  - rewrite Hid, He. reflexivity.
  - rewrite IH. reflexivity.
Qed.

Lemma order_update_unique_ids (id : string)
    (data : OrderRecord M -> Result (OrderRecord M)) w :
  (forall r r', data r = inr r' ->
                order_id (rec_order r') = order_id (rec_order r)) ->
  unique_ids w ->
  unique_ids (snd (order_update id data w)).
Proof.
  intros Hdata Hw. unfold order_update.
  destruct (find (has_id id) (orders w)) as [r|] eqn:E; [|exact Hw].
  destruct (data r) as [e | r'] eqn:Ed; [exact Hw|].
  unfold unique_ids, order_ids. simpl.
  rewrite replace_first_ids; [exact Hw|].
  rewrite (Hdata _ _ Ed). apply find_some in E. destruct E as [_ E].
  apply String.eqb_eq. exact E.
Qed.

Lemma order_create_unique_ids (newId : string) (now : Z) (totalAmount : M)
    (totalItems : Z) (data : list (OrderItem M)) w :
  unique_ids w ->
  unique_ids (snd (order_create newId now totalAmount totalItems data w)).
Proof.
  intros Hw. unfold order_create.
  destruct (existsb (has_id newId) (orders w)) eqn:Ex; [exact Hw|].
  unfold unique_ids, order_ids. simpl. rewrite map_app. simpl.
  apply NoDup_snoc; [exact Hw|].
  intros Hin. apply in_map_iff in Hin. destruct Hin as [r [Hr Hin]].
  assert (Ht : existsb (has_id newId) (orders w) = true).
  { apply existsb_exists. exists r. split; [exact Hin|].
    apply String.eqb_eq. exact Hr. }
  congruence.
Qed.

Lemma create_unique_ids natsClient (newId : string) (now : Z)
    (createOrderDto : CreateOrderDto) w :
  unique_ids w ->
  unique_ids (snd (create natsClient newId now createOrderDto w)).
Proof.
  intros Hw.
  unfold create, bind, send_validate_products, lift, ret.
  destruct (validate_products natsClient _); [exact Hw|].
  destruct (reduce _ _ _) as [e | totalAmount]; [exact Hw|].
  destruct (mapE _ _) as [e | data]; [exact Hw|].
  match goal with
  | |- context [order_create ?i ?n ?a ?t ?d ?w0] =>
      pose proof (order_create_unique_ids i n a t d w0 Hw) as Hnew;
      destruct (order_create i n a t d w0) as [[e | order] w1]
  end; simpl in Hnew; [exact Hnew|].
  destruct (mapE _ _); exact Hnew.
Qed.

Lemma changeStatus_unique_ids natsClient
    (changeOrderStatus : ChangeOrderStatus) w :
  unique_ids w ->
  unique_ids (snd (changeStatus natsClient changeOrderStatus w)).
Proof.
  intros Hw. unfold changeStatus, bind.
  pose proof (findOne_keeps_orders natsClient (cos_id changeOrderStatus) w)
    as Hkeep.
  destruct (findOne natsClient (cos_id changeOrderStatus) w)
    as [[e | order] w1]; simpl in Hkeep.
  - unfold unique_ids, order_ids. simpl. rewrite Hkeep. exact Hw.
  - assert (Hw1 : unique_ids w1).
    { unfold unique_ids, order_ids. rewrite Hkeep. exact Hw. }
    destruct (OrderStatus_eqb _ _); [exact Hw1|].
    pose proof (order_update_unique_ids (cos_id changeOrderStatus)
                  (data_status (cos_status changeOrderStatus)) w1) as Hupd.
    destruct (order_update _ _ w1) as [[e | updated] w2]; simpl in *;
      apply Hupd; try exact Hw1;
      intros r r' Hd; injection Hd as <-; reflexivity.
Qed.

Lemma paidOrder_unique_ids (schema : ReceiptRelation) (now : Z)
    (paidOrderDto : PaidOrderDto) w :
  unique_ids w ->
  unique_ids (snd (paidOrder schema now paidOrderDto w)).
Proof.
  intros Hw. unfold paidOrder, bind, ret.
  pose proof (order_update_unique_ids (paid_orderId paidOrderDto)
                (data_paid schema now (paid_stripePaymentId paidOrderDto)
                   (paid_receiptUrl paidOrderDto)) w) as Hupd.
  destruct (order_update _ _ w) as [[e | paid] w1]; simpl in *;
    apply Hupd; try exact Hw;
    intros r r' Hd; unfold data_paid in Hd;
    destruct (receipt_create _ _ _); [discriminate | | discriminate |];
    injection Hd as <-; reflexivity.
Qed.

(** ** findAll *)

Lemma Math_ceil_div_spec (a : Z) (b : positive) :
  (Math_ceil_div a b - 1) * Z.pos b < a <= Math_ceil_div a b * Z.pos b.
Proof.
  unfold Math_ceil_div.
  pose proof (Z.div_mod a (Z.pos b) ltac:(lia)) as Hdm.
  pose proof (Z.mod_pos_bound a (Z.pos b) ltac:(lia)) as Hm.
  destruct (Z.eqb_spec (a mod Z.pos b) 0) as [H0 | Hn]; nia.
Qed.

Lemma Math_ceil_div_unique (a : Z) (b : positive) (n : Z) :
  (n - 1) * Z.pos b < a <= n * Z.pos b ->
  Math_ceil_div a b = n.
Proof.
  intros Hn. pose proof (Math_ceil_div_spec a b) as Hc.
  assert (H1 : Math_ceil_div a b - 1 < n).
  { apply (Z.mul_lt_mono_pos_r (Z.pos b)); lia. }
  assert (H2 : n - 1 < Math_ceil_div a b).
  { apply (Z.mul_lt_mono_pos_r (Z.pos b)); lia. }
  lia.
Qed.

(** C7. [findAll] answers with [meta.total] the number of orders that match
    the status filter, with [meta.lastPage] the ceiling of total / limit,
    and with the matching orders from offset (page - 1) * limit on, at most
    limit of them; with limit 10, page 2 and 25 matching orders, lastPage is
    3 and the offset is 10. *)
Theorem findAll_page (paginationDto : PaginationDto) w :
  let limit := pg_limit paginationDto in
  let page := pg_page paginationDto in
  let matching := filter (where_status (pg_status paginationDto)) (orders w) in
  let total := Z.of_nat (length matching) in
  let skip := ((Pos.to_nat page - 1) * Pos.to_nat limit)%nat in
  exists result,
    findAll paginationDto w = (inr result, w) /\
    meta_page (page_meta result) = page /\
    meta_total (page_meta result) = total /\
    (meta_lastPage (page_meta result) - 1) * Z.pos limit < total
      <= meta_lastPage (page_meta result) * Z.pos limit /\
    page_data result
    = map rec_order (firstn (Pos.to_nat limit) (skipn skip matching)) /\
    (length (page_data result) <= Pos.to_nat limit)%nat /\
    (limit = 10%positive -> page = 2%positive -> total = 25 ->
     meta_lastPage (page_meta result) = 3 /\ skip = 10%nat /\
     length (page_data result) = 10%nat).
Proof.
  intros limit page matching total skip.
  assert (Hskip : Z.to_nat ((Z.pos page - 1) * Z.pos limit) = skip).
  { unfold skip. rewrite Z2Nat.inj_mul, Z2Nat.inj_sub by lia. reflexivity. }
  eexists. split.
  { unfold findAll, bind, order_count, order_findMany, ret.
    fold limit page matching. rewrite Hskip.
    change (Z.to_nat (Z.pos limit)) with (Pos.to_nat limit). reflexivity. }
  simpl. fold total.
  split; [reflexivity|]. split; [reflexivity|].
  split; [apply Math_ceil_div_spec|]. split; [reflexivity|].
  split.
  - rewrite length_map. apply firstn_le_length.
  - intros Hl Hp Ht. rewrite Hl, Hp in *. split; [|split].
    + apply Math_ceil_div_unique. lia.
    + unfold skip. rewrite Hl, Hp. reflexivity.
    + rewrite length_map, length_firstn, length_skipn.
      assert (Hskip10 : skip = 10%nat) by (unfold skip; rewrite Hl, Hp; reflexivity).
      rewrite Hskip10. unfold total in Ht. lia.
Qed.

(** ** paidOrder *)

Lemma paidOrder_accepted (schema : ReceiptRelation) (now : Z)
    (paidOrderDto : PaidOrderDto) w r :
  stored w (paid_orderId paidOrderDto) = Some r ->
  schema = OneToMany \/ rec_OrderReceipt r = [] ->
  paidOrder schema now paidOrderDto w
  = (inr (rec_order (paid_record now paidOrderDto r)),
     with_orders (replace_first (paid_orderId paidOrderDto)
                    (paid_record now paidOrderDto r) (orders w)) w).
Proof.
  unfold stored. intros E Hok.
  unfold paidOrder, bind, order_update, ret. rewrite E.
  unfold data_paid, receipt_create.
  destruct Hok as [-> | Hnone]; [reflexivity|].
  unfold paid_record. rewrite Hnone. destruct schema; reflexivity.
Qed.

Lemma paidOrder_rejected (now : Z) (paidOrderDto : PaidOrderDto) w r :
  stored w (paid_orderId paidOrderDto) = Some r ->
  rec_OrderReceipt r <> [] ->
  paidOrder OneToOne now paidOrderDto w
  = (inl (PrismaError RelationViolation), w).
Proof.
  unfold stored. intros E Hsome.
  unfold paidOrder, bind, order_update. rewrite E.
  unfold data_paid, receipt_create.
  destruct (rec_OrderReceipt r); [congruence | reflexivity].
Qed.

(** C2, as the code has it.  The first [paidOrder] on a stored order without
    a receipt leaves it paid, [PAID] and with exactly one receipt.  A second
    one with the same arguments is not a silent repetition: on a one-to-one
    receipt relation the store rejects it, so the call throws and the order
    stays as the first left it; on a one-to-many relation it succeeds and
    the order then has two receipts. *)
Theorem paidOrder_twice (schema : ReceiptRelation) (now now' : Z)
    (paidOrderDto : PaidOrderDto) w r :
  let id := paid_orderId paidOrderDto in
  let receipt := {| receipt_url := paid_receiptUrl paidOrderDto |} in
  stored w id = Some r ->
  rec_OrderReceipt r = [] ->
  exists paid w1,
    paidOrder schema now paidOrderDto w = (inr paid, w1) /\
    order_paid paid = true /\ order_status paid = PAID /\
    stored w1 id = Some (paid_record now paidOrderDto r) /\
    rec_order (paid_record now paidOrderDto r) = paid /\
    receipts w1 id = [receipt] /\
    match schema with
    | OneToOne =>
        paidOrder schema now' paidOrderDto w1
        = (inl (PrismaError RelationViolation), w1)
    | OneToMany =>
        exists paid' w2,
          paidOrder schema now' paidOrderDto w1 = (inr paid', w2) /\
          order_paid paid' = true /\ order_status paid' = PAID /\
          receipts w2 id = [receipt; receipt]
    end.
Proof.
  intros id receipt E Hnone.
  assert (Hid : forall now0 r0,
             order_id (rec_order r0) = id ->
             has_id id (paid_record now0 paidOrderDto r0) = true).
  { intros now0 r0 Hr0. unfold has_id. simpl. rewrite Hr0.
    apply String.eqb_refl. }
  destruct (stored_some _ _ _ E) as [_ Hr].
  set (r1 := paid_record now paidOrderDto r).
  set (w1 := with_orders (replace_first id r1 (orders w)) w).
  assert (E1 : stored w1 id = Some r1).
  { unfold stored, w1. simpl. eapply find_replace_first; [exact E|].
    apply Hid, Hr. }
  assert (Hrec1 : rec_OrderReceipt r1 = [receipt]).
  { unfold r1. simpl. rewrite Hnone. reflexivity. }
  exists (rec_order r1), w1.
  split; [apply paidOrder_accepted; [exact E | right; exact Hnone]|].
  split; [reflexivity|]. split; [reflexivity|]. split; [exact E1|].
  split; [reflexivity|].
  split; [unfold receipts; rewrite E1; exact Hrec1|].
  destruct schema.
  - apply (paidOrder_rejected now' paidOrderDto w1 r1 E1).
    rewrite Hrec1. discriminate.
  - set (r2 := paid_record now' paidOrderDto r1).
    exists (rec_order r2),
           (with_orders (replace_first id r2 (orders w1)) w1).
    split; [apply paidOrder_accepted; [exact E1 | left; reflexivity]|].
    split; [reflexivity|]. split; [reflexivity|].
    unfold receipts, stored. simpl.
    erewrite find_replace_first; [| exact E1 | apply Hid; exact Hr].
    unfold r2. simpl. rewrite Hnone. reflexivity.
Qed.

End Properties.

(** * The scenarios, run *)

(** The example of section 8: two widgets at 5 make an order of amount 10
    and 2 items, and the item is named. *)
Example create_two_widgets :
  fst (create (catalog_service [widget]) "o1" 100 two_widgets empty_world)
  = inr {| owp_order :=
             {| order_id := "o1";
                order_totalAmount := 10;
                order_totalItems := 2;
                order_status := PENDING;
                order_paid := false;
                order_paidAt := None;
                order_stripeChargeId := None;
                order_createdAt := 100 |};
           owp_OrderItem :=
             [ {| ni_price := 5; ni_quantity := 2;
                  ni_productId := "p1"; ni_name := "Widget" |} ] |}.
Proof. reflexivity. Qed.

Example world_o1_holds_record_o1 : stored world_o1 "o1" = Some record_o1.
Proof. reflexivity. Qed.

(** ** create *)

(** C1, as worded, fails.  The catalog knows only the widget; an order for
    widgets and gadgets fails, but with a [TypeError], not with a
    client-error failure that names the gadget. *)
Lemma create_unknown_product_counterexample :
  ~ in_reply [widget] "p2" /\
  ~ (exists e,
       fst (create (catalog_service [widget]) "o1" 100 widgets_and_gadgets
              empty_world) = inl e /\
       product_not_found "p2" e).
Proof.
  split.
  - intros [H | []]. discriminate H.
  - intros [e [He [payload [Hp _]]]].
    vm_compute in He. injection He as <-. discriminate Hp.
Qed.

Lemma create_unknown_product_witness :
  validate_products (catalog_service [widget])
    (map item_productId (dto_items widgets_and_gadgets)) = inr [widget] /\
  Exists (fun item => ~ in_reply [widget] (item_productId item))
         (dto_items widgets_and_gadgets) /\
  create (catalog_service [widget]) "o1" 100 widgets_and_gadgets empty_world
  = (inl (TypeError "price"),
     after_send empty_world
       (ValidateProducts (map item_productId (dto_items widgets_and_gadgets)))) /\
  orders (snd (create (catalog_service [widget]) "o1" 100 widgets_and_gadgets
                 empty_world)) = orders empty_world /\
  ~ client_error (TypeError "price").
Proof.
  assert (Hmissing :
            Exists (fun item => ~ in_reply [widget] (item_productId item))
                   (dto_items widgets_and_gadgets)).
  { right. left. simpl. intros [H | []]. discriminate H. }
  split; [reflexivity|]. split; [exact Hmissing|].
  exact (create_unknown_product (catalog_service [widget]) "o1" 100
           widgets_and_gadgets empty_world [widget] eq_refl Hmissing).
Defined.

(** C3, as worded, fails.  An order that lists the widget twice sends the
    catalog the widget's id twice. *)
Lemma create_sends_item_ids_counterexample :
  sent (snd (create (catalog_service [widget]) "o1" 100 widgets_twice
               empty_world))
  = [ValidateProducts ["p1"; "p1"]%string] /\
  ~ sends_distinct_ids
      (sent (snd (create (catalog_service [widget]) "o1" 100 widgets_twice
                    empty_world))).
Proof.
  split; [reflexivity|].
  intros H. specialize (H ["p1"; "p1"]%string (or_introl eq_refl)).
  inversion H as [|x l Hnotin _]; subst. apply Hnotin. left. reflexivity.
Qed.

Lemma create_totals_witness :
  validate_products (catalog_service [widget; gadget])
    (map item_productId (dto_items widgets_and_gadgets))
  = inr [widget; gadget] /\
  Forall (fun item => in_reply [widget; gadget] (item_productId item))
         (dto_items widgets_and_gadgets) /\
  (forall r, In r (orders empty_world) -> order_id (rec_order r) <> "o1"%string) /\
  exists order w',
    create (catalog_service [widget; gadget]) "o1" 100 widgets_and_gadgets
      empty_world = (inr order, w') /\
    order_totalAmount (owp_order order) = 31 /\
    order_totalItems (owp_order order) = 5 /\
    orders w' = [record_o1].
Proof.
  assert (Hknown :
            Forall (fun item => in_reply [widget; gadget] (item_productId item))
                   (dto_items widgets_and_gadgets)).
  { repeat apply Forall_cons; try apply Forall_nil;
      unfold in_reply; simpl; auto. }
  assert (Hfresh : forall r : OrderRecord Z,
             In r (orders empty_world) -> order_id (rec_order r) <> "o1"%string).
  { intros r []. }
  split; [reflexivity|]. split; [exact Hknown|]. split; [exact Hfresh|].
  destruct (create_totals (catalog_service [widget; gadget]) "o1" 100
              widgets_and_gadgets empty_world [widget; gadget]
              eq_refl Hknown Hfresh)
    as [order [w' [Hrun [Hamount [Hitems Horders]]]]].
  exists order, w'.
  split; [exact Hrun|]. split; [exact Hamount|]. split; [exact Hitems|].
  rewrite Horders. vm_compute in Hrun. injection Hrun as <- _. reflexivity.
Defined.

(** ** findOne *)

Lemma findOne_not_found_witness :
  (forall r, In r (orders world_o1) -> order_id (rec_order r) <> "o2"%string) /\
  findOne (catalog_service [widget; gadget]) "o2" world_o1
  = (inl (RpcException {| rpc_message := "Order with id o2 not found";
                          rpc_status := 404 |}), world_o1).
Proof.
  assert (Habsent : forall r : OrderRecord Z,
             In r (orders world_o1) -> order_id (rec_order r) <> "o2"%string).
  { intros r Hin. vm_compute in Hin. destruct Hin as [<- | []].
    discriminate. }
  split; [exact Habsent|].
  destruct (findOne_not_found (catalog_service [widget; gadget]) "o2" world_o1
              Habsent) as [message [Hrun [-> _]]].
  exact Hrun.
Defined.

(** The order was created at prices 5 and 7; the catalog now asks 9 and 1.
    [findOne] returns the names of the catalog and the prices of the order. *)
Lemma findOne_names_and_snapshot_witness :
  stored world_o1 "o1" = Some record_o1 /\
  validate_products (catalog_service [widget_repriced; gadget_repriced])
    (map oi_productId (rec_OrderItem record_o1))
  = inr [widget_repriced; gadget_repriced] /\
  Forall (fun orderItem =>
            in_reply [widget_repriced; gadget_repriced]
                     (oi_productId orderItem))
         (rec_OrderItem record_o1) /\
  exists order w',
    findOne (catalog_service [widget_repriced; gadget_repriced]) "o1" world_o1
    = (inr order, w') /\
    owp_order order = rec_order record_o1 /\
    map ni_price (owp_OrderItem order) = [5; 7] /\
    map ni_name (owp_OrderItem order) = ["Widget"; "Gadget"]%string.
Proof.
  assert (Hknown :
            Forall (fun orderItem =>
                      in_reply [widget_repriced; gadget_repriced]
                               (oi_productId orderItem))
                   (rec_OrderItem record_o1)).
  { repeat apply Forall_cons; try apply Forall_nil;
      unfold in_reply; simpl; auto. }
  split; [reflexivity|]. split; [reflexivity|]. split; [exact Hknown|].
  destruct (findOne_names_and_snapshot
              (catalog_service [widget_repriced; gadget_repriced]) "o1"
              world_o1 record_o1 [widget_repriced; gadget_repriced]
              eq_refl eq_refl Hknown)
    as [order [w' [Hrun [Horder [_ [Hprices _]]]]]].
  exists order, w'.
  split; [exact Hrun|]. split; [exact Horder|]. split; [exact Hprices|].
  vm_compute in Hrun. injection Hrun as <- _. reflexivity.
Defined.

Lemma findOne_missing_product_witness :
  stored world_o1 "o1" = Some record_o1 /\
  validate_products (catalog_service [widget])
    (map oi_productId (rec_OrderItem record_o1)) = inr [widget] /\
  Exists (fun orderItem => ~ in_reply [widget] (oi_productId orderItem))
         (rec_OrderItem record_o1) /\
  fst (findOne (catalog_service [widget]) "o1" world_o1)
  = inl (TypeError "name").
Proof.
  assert (Hmissing :
            Exists (fun orderItem => ~ in_reply [widget] (oi_productId orderItem))
                   (rec_OrderItem record_o1)).
  { right. left. simpl. intros [H | []]. discriminate H. }
  split; [reflexivity|]. split; [reflexivity|]. split; [exact Hmissing|].
  exact (findOne_missing_product (catalog_service [widget]) "o1" world_o1
           record_o1 [widget] eq_refl eq_refl Hmissing).
Defined.

(** ** changeStatus *)



(** C6, as worded, fails.  Order [o1] is stored and [PENDING]; the catalog
    cannot be reached.  [changeStatus] to [DELIVERED] throws in [findOne],
    before the update, and the stored order is still [PENDING]. *)
Lemma changeStatus_new_status_counterexample :
  stored world_o1 "o1" = Some record_o1 /\
  DELIVERED <> order_status (rec_order record_o1) /\
  fst (changeStatus catalog_down
         {| cos_id := "o1"; cos_status := DELIVERED |} world_o1)
  = inl (RpcException {| rpc_message := "catalog unreachable";
                         rpc_status := 503 |}) /\
  ~ status_updated catalog_down "o1" DELIVERED world_o1.
Proof.
  split; [reflexivity|]. split; [discriminate|]. split; [reflexivity|].
  intros [r' [Hstored Hstatus]].
  vm_compute in Hstored. injection Hstored as <-. discriminate Hstatus.
Qed.

Lemma changeStatus_new_status_witness :
  stored world_o1 "o1" = Some record_o1 /\
  DELIVERED <> order_status (rec_order record_o1) /\
  validate_products (catalog_service [widget; gadget])
    (map oi_productId (rec_OrderItem record_o1)) = inr [widget; gadget] /\
  Forall (fun orderItem => in_reply [widget; gadget] (oi_productId orderItem))
         (rec_OrderItem record_o1) /\
  exists updated w',
    changeStatus (catalog_service [widget; gadget])
      {| cos_id := "o1"; cos_status := DELIVERED |} world_o1
    = (inr (inr updated), w') /\
    order_status updated = DELIVERED /\
    stored w' "o1" = Some (with_status DELIVERED record_o1) /\
    exists order,
      fst (findOne (catalog_service [widget_repriced; gadget_repriced]) "o1" w')
      = inr order /\
      order_status (owp_order order) = DELIVERED.
Proof.
  assert (Hneq : DELIVERED <> order_status (rec_order record_o1))
    by discriminate.
  assert (Hknown :
            Forall (fun orderItem =>
                      in_reply [widget; gadget] (oi_productId orderItem))
                   (rec_OrderItem record_o1)).
  { repeat apply Forall_cons; try apply Forall_nil;
      unfold in_reply; simpl; auto. }
  assert (Hknown' :
            Forall (fun orderItem =>
                      in_reply [widget_repriced; gadget_repriced]
                               (oi_productId orderItem))
                   (rec_OrderItem record_o1)).
  { repeat apply Forall_cons; try apply Forall_nil;
      unfold in_reply; simpl; auto. }
  split; [reflexivity|]. split; [exact Hneq|]. split; [reflexivity|].
  split; [exact Hknown|].
  destruct (changeStatus_new_status (catalog_service [widget; gadget]) "o1"
              DELIVERED world_o1 record_o1 [widget; gadget]
              eq_refl Hneq eq_refl Hknown)
    as [updated [w' [Hrun [Hstatus [Hstored [_ [_ [_ Hlater]]]]]]]].
  exists updated, w'.
  split; [exact Hrun|]. split; [exact Hstatus|]. split; [exact Hstored|].
  exact (Hlater (catalog_service [widget_repriced; gadget_repriced])
           [widget_repriced; gadget_repriced] eq_refl Hknown').
Defined.

(** ** findAll *)

Lemma findAll_page_witness :
  exists result,
    findAll second_page world_30 = (inr result, world_30) /\
    meta_total (page_meta result) = 25 /\
    meta_lastPage (page_meta result) = 3 /\
    map order_id (page_data result)
    = ["m"; "n"; "o"; "p"; "q"; "s"; "t"; "u"; "v"; "w"]%string.
Proof.
  destruct (findAll_page second_page world_30)
    as [result [Hrun [_ [Htotal [_ [Hdata [_ Hcase]]]]]]].
  exists result.
  split; [exact Hrun|]. split; [exact Htotal|].
  split; [exact (proj1 (Hcase eq_refl eq_refl eq_refl))|].
  rewrite Hdata. reflexivity.
Defined.

(** ** paidOrder *)

(** C2, as worded, fails.  With one receipt per order the second
    application throws; with several receipts per order it leaves two. *)
Lemma paidOrder_twice_counterexample :
  stored world_o1 "o1" = Some record_o1 /\
  ~ paid_twice_as_once OneToOne 200 201 payment_o1 world_o1 /\
  ~ paid_twice_as_once OneToMany 200 201 payment_o1 world_o1.
Proof.
  split; [reflexivity|]. split.
  - intros [paid [w1 [paid' [w2 [H1 [H2 _]]]]]].
    vm_compute in H1. injection H1 as <- <-.
    vm_compute in H2. discriminate H2.
  - intros [paid [w1 [paid' [w2 [H1 [H2 [_ [_ Hone]]]]]]]].
    vm_compute in H1. injection H1 as <- <-.
    vm_compute in H2. injection H2 as <- <-.
    vm_compute in Hone. discriminate Hone.
Qed.

Lemma paidOrder_twice_witness :
  stored world_o1 (paid_orderId payment_o1) = Some record_o1 /\
  rec_OrderReceipt record_o1 = [] /\
  exists paid w1,
    paidOrder OneToOne 200 payment_o1 world_o1 = (inr paid, w1) /\
    order_paid paid = true /\ order_status paid = PAID /\
    receipts w1 "o1"
    = [ {| receipt_url := "https://pay.example/receipt/1" |} ] /\
    paidOrder OneToOne 201 payment_o1 w1
    = (inl (PrismaError RelationViolation), w1).
Proof.
  split; [reflexivity|]. split; [reflexivity|].
  destruct (paidOrder_twice OneToOne 200 201 payment_o1 world_o1 record_o1
              eq_refl eq_refl)
    as [paid [w1 [Hrun [Hpaid [Hstatus [_ [_ [Hreceipts Hsecond]]]]]]]].
  exists paid, w1.
  split; [exact Hrun|]. split; [exact Hpaid|]. split; [exact Hstatus|].
  split; [exact Hreceipts | exact Hsecond].
Defined.

(** * Further properties of the service *)

Section Coverage.

Context {M : Type} {money : Money M}.

Implicit Types (w : World M) (natsClient : ClientProxy M).
Implicit Types (products : list (Product M)) (r : OrderRecord M).

(** ** Lists and lookups *)

Lemma find_app_found {A : Type} (f : A -> bool) (l l' : list A) (x : A) :
  find f l = Some x -> find f (l ++ l') = Some x.
Proof.
  induction l as [|y l IH]; simpl; [discriminate|].
  destruct (f y); [trivial | exact IH].
Qed.

Lemma find_app_missing {A : Type} (f : A -> bool) (l l' : list A) :
  find f l = None -> find f (l ++ l') = find f l'.
Proof.
  induction l as [|y l IH]; simpl; [reflexivity|].
  destruct (f y); [discriminate | exact IH].
Qed.

Lemma existsb_false_find {A : Type} (f : A -> bool) (l : list A) :
  existsb f l = false -> find f l = None.
Proof.
  induction l as [|y l IH]; simpl; [reflexivity|].
  destruct (f y); simpl; [discriminate | exact IH].
Qed.

Lemma mapE_inr_map {A B C : Type} (f : A -> Result B) (g : B -> C)
    (h : A -> C) (l : list A) (ys : list B) :
  (forall x y, f x = inr y -> g y = h x) ->
  mapE f l = inr ys ->
  map g ys = map h l.
Proof.
  intros Hf. revert ys.
  induction l as [|x l IH]; simpl; intros ys H.
  - injection H as <-. reflexivity.
  - destruct (f x) as [e | y] eqn:Ex; [discriminate|].
    destruct (mapE f l) as [e | ys'] eqn:El; [discriminate|].
    injection H as <-. simpl. rewrite (Hf _ _ Ex), (IH _ eq_refl).
    reflexivity.
Qed.

Lemma mapE_inr_Forall {A B : Type} (f : A -> Result B) (P : B -> Prop)
    (l : list A) (ys : list B) :
  (forall x y, f x = inr y -> P y) ->
  mapE f l = inr ys ->
  Forall P ys.
Proof.
  intros Hf. revert ys.
  induction l as [|x l IH]; simpl; intros ys H.
  - injection H as <-. constructor.
  - destruct (f x) as [e | y] eqn:Ex; [discriminate|].
    destruct (mapE f l) as [e | ys'] eqn:El; [discriminate|].
    injection H as <-. constructor; [exact (Hf _ _ Ex) | exact (IH _ eq_refl)].
Qed.

Lemma with_name_found products (orderItem : OrderItem M) :
  find_product products (oi_productId orderItem) <> None ->
  exists named, with_name products orderItem = inr named.
Proof.
  unfold with_name. intros H.
  destruct (find_product products (oi_productId orderItem)); [|congruence].
  eexists. reflexivity.
Qed.

(** The items [create] has priced can all be named: the two lookups read
    the same reply. *)
Lemma priced_then_named products (items : list OrderItemDto)
    (data : list (OrderItem M)) :
  mapE (fun item =>
          match prop "price" product_price
                  (find_product products (item_productId item)) with
          | inl e => inl e
          | inr price =>
              inr {| oi_price := price;
                     oi_quantity := item_quantity item;
                     oi_productId := item_productId item |}
          end) items = inr data ->
  exists named, mapE (with_name products) data = inr named.
Proof.
  intros Hdata.
  assert (Hfound : Forall (fun orderItem =>
                             find_product products (oi_productId orderItem)
                             <> None) data).
  { eapply mapE_inr_Forall; [|exact Hdata]. intros item y Hy. simpl in Hy.
    destruct (find_product products (item_productId item)) eqn:Ef;
      simpl in Hy; [|discriminate].
    injection Hy as <-. simpl. rewrite Ef. discriminate. }
  clear Hdata. induction Hfound as [|orderItem data Hx _ [named IH]]; simpl.
  - eexists. reflexivity.
  - destruct (with_name_found _ _ Hx) as [n Hn]. rewrite Hn, IH.
    eexists. reflexivity.
Qed.

Lemma priced_items_ids products (items : list OrderItemDto) :
  map oi_productId (priced_items products items) = map item_productId items.
Proof. unfold priced_items. rewrite map_map. reflexivity. Qed.

(** ** create *)

(** What [create] does when the reply prices every product and the
    identifier is unused. *)
Lemma create_known natsClient (newId : string) (now : Z)
    (createOrderDto : CreateOrderDto) w products :
  let items := dto_items createOrderDto in
  validate_products natsClient (map item_productId items) = inr products ->
  Forall (fun item => in_reply products (item_productId item)) items ->
  existsb (has_id newId) (orders w) = false ->
  create natsClient newId now createOrderDto w
  = (inr {| owp_order := rec_order (created_record newId now products items);
            owp_OrderItem :=
              named_items products (priced_items products items) |},
     with_orders (orders w ++ [created_record newId now products items])
       (after_send w (ValidateProducts (map item_productId items)))).
Proof.
  intros items Hreply Hknown Hfresh.
  unfold create, bind, send_validate_products, lift. fold items.
  rewrite Hreply.
  rewrite (reduce_total _
             (fun acc item =>
                madd acc (mscale (catalog_price products (item_productId item))
                                 (item_quantity item)))).
  2:{ eapply Forall_impl; [|exact Hknown]. intros item Hin acc. simpl in Hin.
      rewrite (prop_price_in_reply _ _ Hin). reflexivity. }
  rewrite (mapE_total _
             (fun item =>
                {| oi_price := catalog_price products (item_productId item);
                   oi_quantity := item_quantity item;
                   oi_productId := item_productId item |})).
  2:{ eapply Forall_impl; [|exact Hknown]. intros item Hin. simpl in Hin.
      rewrite (prop_price_in_reply _ _ Hin). reflexivity. }
  unfold order_create. simpl orders. rewrite Hfresh. simpl owi_OrderItem.
  fold (priced_items products items).
  rewrite (mapE_total (with_name products)
             (fun orderItem =>
                {| ni_price := oi_price orderItem;
                   ni_quantity := oi_quantity orderItem;
                   ni_productId := oi_productId orderItem;
                   ni_name := catalog_name products (oi_productId orderItem) |})).
  2:{ unfold priced_items. apply Forall_map.
      eapply Forall_impl; [|exact Hknown].
      intros item Hin. simpl in Hin. apply with_name_in_reply. exact Hin. }
  unfold ret, created_record, sum_money, named_items, after_send.
  rewrite fold_left_madd_map, fold_left_quantity, Z.add_0_l. reflexivity.
Qed.

(** The order table after [create]: as before, or with one record more. *)
Lemma create_orders natsClient (newId : string) (now : Z)
    (createOrderDto : CreateOrderDto) w :
  orders (snd (create natsClient newId now createOrderDto w)) = orders w \/
  exists r,
    orders (snd (create natsClient newId now createOrderDto w))
    = orders w ++ [r] /\
    order_id (rec_order r) = newId.
Proof.
  unfold create, bind, send_validate_products, lift, order_create, ret.
  destruct (validate_products natsClient _); [left; reflexivity|].
  destruct (reduce _ _ _); [left; reflexivity|].
  destruct (mapE _ _); [left; reflexivity|].
  simpl orders.
  destruct (existsb _ _); [left; reflexivity|].
  right. eexists.
  destruct (mapE _ _); simpl; split; reflexivity.
Qed.

(** X1. When the catalog answers the validation request with an error,
    [create] throws an [RpcException] that carries that error; the request
    has been sent and nothing is written to the store. *)
Theorem create_catalog_failure natsClient (newId : string) (now : Z)
    (createOrderDto : CreateOrderDto) w (err : RpcError) :
  let ids := map item_productId (dto_items createOrderDto) in
  validate_products natsClient ids = inl err ->
  create natsClient newId now createOrderDto w
  = (inl (RpcException err), after_send w (ValidateProducts ids)) /\
  orders (snd (create natsClient newId now createOrderDto w)) = orders w.
Proof.
  intros ids Herr.
  assert (Hrun : create natsClient newId now createOrderDto w
                 = (inl (RpcException err),
                    after_send w (ValidateProducts ids))).
  { unfold create, bind, send_validate_products. fold ids. rewrite Herr.
    reflexivity. }
  split; [exact Hrun | rewrite Hrun; reflexivity].
Qed.

(** X2. [create] is all or nothing.  When it throws, the order table is as
    it was.  When it returns, the table has exactly one record more: the
    returned order, pending, unpaid and without receipt, under the new
    identifier and creation time, with one item per requested item carrying
    its productId and quantity, and these are the items returned. *)
Theorem create_all_or_nothing natsClient (newId : string) (now : Z)
    (createOrderDto : CreateOrderDto) w :
  match create natsClient newId now createOrderDto w with
  | (inl _, w') => orders w' = orders w
  | (inr order, w') =>
      exists items,
        orders w' = orders w ++ [ {| rec_order := owp_order order;
                                     rec_OrderItem := items;
                                     rec_OrderReceipt := [] |} ] /\
        order_id (owp_order order) = newId /\
        order_createdAt (owp_order order) = now /\
        order_status (owp_order order) = PENDING /\
        order_paid (owp_order order) = false /\
        order_paidAt (owp_order order) = None /\
        order_stripeChargeId (owp_order order) = None /\
        map (fun i => (oi_productId i, oi_quantity i)) items
        = map (fun i => (item_productId i, item_quantity i))
              (dto_items createOrderDto) /\
        map (fun i => (ni_productId i, ni_quantity i, ni_price i))
            (owp_OrderItem order)
        = map (fun i => (oi_productId i, oi_quantity i, oi_price i)) items
  end.
Proof.
  unfold create, bind, send_validate_products, lift, order_create, ret.
  destruct (validate_products natsClient _) as [err | products];
    [reflexivity|].
  destruct (reduce _ _ _) as [e | totalAmount]; [reflexivity|].
  destruct (mapE _ (dto_items createOrderDto)) as [e | data] eqn:Edata;
    [reflexivity|].
  simpl orders.
  destruct (existsb _ _); [reflexivity|]. simpl owi_OrderItem.
  destruct (priced_then_named _ _ _ Edata) as [named Enamed].
  rewrite Enamed.
  exists data. simpl. repeat (split; [reflexivity|]). split.
  - eapply mapE_inr_map; [|exact Edata]. intros item y Hy. simpl in Hy.
    destruct (prop _ _ _); [discriminate|]. injection Hy as <-. reflexivity.
  - eapply mapE_inr_map; [|exact Enamed]. intros orderItem y Hy.
    unfold with_name in Hy.
    destruct (prop _ _ _); [discriminate|]. injection Hy as <-. reflexivity.
Qed.

(** X3. When the reply prices every product of the request and the
    identifier is unused, [create] returns one item per requested item, in
    request order, with the requested productId and quantity and with the
    price and the name of the first entry of the reply for that productId. *)
Theorem create_returns_named_items natsClient (newId : string) (now : Z)
    (createOrderDto : CreateOrderDto) w products :
  let items := dto_items createOrderDto in
  validate_products natsClient (map item_productId items) = inr products ->
  Forall (fun item => in_reply products (item_productId item)) items ->
  (forall r, In r (orders w) -> order_id (rec_order r) <> newId) ->
  exists order w',
    create natsClient newId now createOrderDto w = (inr order, w') /\
    Forall2
      (fun item named =>
         ni_productId named = item_productId item /\
         ni_quantity named = item_quantity item /\
         exists product,
           find_product products (item_productId item) = Some product /\
           ni_price named = product_price product /\
           ni_name named = product_name product)
      items (owp_OrderItem order).
Proof.
  intros items Hreply Hknown Hfresh.
  eexists. eexists. split.
  { apply (create_known _ _ _ _ _ products Hreply Hknown).
    apply fresh_id_not_stored. exact Hfresh. }
  simpl. unfold named_items, priced_items. rewrite map_map. simpl.
  fold items. clear Hreply. clearbody items.
  induction Hknown as [|item rest Hin _ IH]; simpl; constructor.
  - simpl. repeat split.
    destruct (find_product_in_reply _ _ Hin) as [product [Hf _]].
    exists product. unfold catalog_price, catalog_name. rewrite Hf.
    repeat split.
  - exact IH.
Qed.

(** X4. An order that [create] has returned is found again: with the same
    catalog, [findOne] on the new identifier returns the very order
    [create] returned. *)
Theorem create_then_findOne natsClient (newId : string) (now : Z)
    (createOrderDto : CreateOrderDto) w products :
  let items := dto_items createOrderDto in
  validate_products natsClient (map item_productId items) = inr products ->
  Forall (fun item => in_reply products (item_productId item)) items ->
  (forall r, In r (orders w) -> order_id (rec_order r) <> newId) ->
  exists order w',
    create natsClient newId now createOrderDto w = (inr order, w') /\
    fst (findOne natsClient newId w') = inr order.
Proof.
  intros items Hreply Hknown Hfresh.
  apply fresh_id_not_stored in Hfresh.
  eexists. eexists. split.
  { apply (create_known _ _ _ _ _ products Hreply Hknown Hfresh). }
  erewrite (findOne_named natsClient newId _
              (created_record newId now products items) products).
  - reflexivity.
  - unfold stored. simpl.
    rewrite (find_app_missing _ _ _ (existsb_false_find _ _ Hfresh)). simpl.
    unfold has_id. simpl. rewrite String.eqb_refl. reflexivity.
  - simpl. rewrite priced_items_ids. exact Hreply.
  - simpl. unfold priced_items. apply Forall_map.
    eapply Forall_impl; [|exact Hknown]. intros item Hin. exact Hin.
Qed.

(** X5. [create] neither changes nor removes an order: whatever it is
    given and however it ends, every identifier that had a record has the
    same record afterwards. *)
Theorem create_keeps_existing natsClient (newId : string) (now : Z)
    (createOrderDto : CreateOrderDto) w (id : string) r :
  stored w id = Some r ->
  stored (snd (create natsClient newId now createOrderDto w)) id = Some r.
Proof.
  unfold stored. intros E.
  destruct (create_orders natsClient newId now createOrderDto w)
    as [-> | [r' [-> _]]]; [exact E|].
  apply find_app_found. exact E.
Qed.

(** X6. A request without items is not refused: when the catalog replies
    and the identifier is unused, [create] stores and returns an order with
    amount 0, no items and item count 0. *)
Theorem create_no_items natsClient (newId : string) (now : Z)
    (createOrderDto : CreateOrderDto) w products :
  dto_items createOrderDto = [] ->
  validate_products natsClient [] = inr products ->
  (forall r, In r (orders w) -> order_id (rec_order r) <> newId) ->
  exists order w',
    create natsClient newId now createOrderDto w = (inr order, w') /\
    order_totalAmount (owp_order order) = mzero /\
    order_totalItems (owp_order order) = 0 /\
    owp_OrderItem order = [] /\
    stored w' newId = Some {| rec_order := owp_order order;
                              rec_OrderItem := [];
                              rec_OrderReceipt := [] |}.
Proof.
  intros Hempty Hreply Hfresh.
  apply fresh_id_not_stored in Hfresh.
  pose proof (create_known natsClient newId now createOrderDto w products)
    as Hrun.
  simpl in Hrun. rewrite Hempty in Hrun. simpl in Hrun.
  specialize (Hrun Hreply (Forall_nil _) Hfresh).
  eexists. eexists. split; [exact Hrun|]. simpl.
  repeat (split; [reflexivity|]).
  unfold stored. simpl.
  rewrite (find_app_missing _ _ _ (existsb_false_find _ _ Hfresh)). simpl.
  unfold has_id. simpl. rewrite String.eqb_refl. reflexivity.
Qed.

(** ** Updates of one record *)

Lemma find_replace_first_other (id id' : string) r'
    (rows : list (OrderRecord M)) :
  id' <> id ->
  has_id id r' = true ->
  find (has_id id') (replace_first id r' rows) = find (has_id id') rows.
Proof.
  intros Hne Hid. apply String.eqb_eq in Hid.
  assert (Hr' : has_id id' r' = false).
  { unfold has_id. rewrite Hid. apply String.eqb_neq. congruence. }
  induction rows as [|x rows IH]; simpl; [reflexivity|].
  destruct (has_id id x) eqn:Ex; simpl.
  - rewrite Hr'. apply String.eqb_eq in Ex.
    assert (Hx : has_id id' x = false).
    { unfold has_id. rewrite Ex. apply String.eqb_neq. congruence. }
    rewrite Hx. reflexivity.
  - rewrite IH. reflexivity.
Qed.

Lemma replace_first_found (id : string) r (rows : list (OrderRecord M)) :
  find (has_id id) rows = Some r ->
  replace_first id r rows = rows.
Proof.
  induction rows as [|x rows IH]; simpl; [reflexivity|].
  destruct (has_id id x); intros H.
  - injection H as <-. reflexivity.
  - rewrite (IH H). reflexivity.
Qed.

Lemma replace_first_twice (id : string) r1 r2
    (rows : list (OrderRecord M)) :
  has_id id r1 = true ->
  replace_first id r2 (replace_first id r1 rows) = replace_first id r2 rows.
Proof.
  intros Hid. induction rows as [|x rows IH]; simpl; [reflexivity|].
  destruct (has_id id x) eqn:Ex; simpl.
  - rewrite Hid. reflexivity.
  - rewrite Ex, IH. reflexivity.
Qed.

Lemma order_update_run (id : string)
    (data : OrderRecord M -> Result (OrderRecord M)) w r r' :
  stored w id = Some r ->
  data r = inr r' ->
  order_update id data w
  = (inr (rec_order r'), with_orders (replace_first id r' (orders w)) w).
Proof.
  unfold stored, order_update. intros E Hd. rewrite E, Hd. reflexivity.
Qed.

Lemma order_update_other (id id' : string)
    (data : OrderRecord M -> Result (OrderRecord M)) w :
  (forall r r', data r = inr r' ->
                order_id (rec_order r') = order_id (rec_order r)) ->
  id' <> id ->
  stored (snd (order_update id data w)) id' = stored w id'.
Proof.
  intros Hdata Hne. unfold order_update.
  destruct (find (has_id id) (orders w)) as [r|] eqn:E; [|reflexivity].
  destruct (data r) as [e | r'] eqn:Ed; [reflexivity|].
  unfold stored. simpl. apply find_replace_first_other; [exact Hne|].
  unfold has_id. rewrite (Hdata _ _ Ed).
  apply find_some in E. destruct E as [_ E]. exact E.
Qed.

Lemma order_update_sent (id : string)
    (data : OrderRecord M -> Result (OrderRecord M)) w :
  sent (snd (order_update id data w)) = sent w.
Proof.
  unfold order_update.
  destruct (find (has_id id) (orders w)) as [r|]; [|reflexivity].
  destruct (data r); reflexivity.
Qed.

Lemma data_status_id (status : OrderStatus) r r' :
  data_status status r = inr r' ->
  order_id (rec_order r') = order_id (rec_order r).
Proof. intros H. injection H as <-. reflexivity. Qed.

Lemma data_paid_id (schema : ReceiptRelation) (now : Z)
    (stripePaymentId receiptUrl : string) r r' :
  data_paid schema now stripePaymentId receiptUrl r = inr r' ->
  order_id (rec_order r') = order_id (rec_order r).
Proof.
  unfold data_paid. destruct (receipt_create _ _ _); [discriminate|].
  intros H. injection H as <-. reflexivity.
Qed.

(** ** findOne and changeStatus *)

(** X7. When the catalog answers the re-validation of a stored order with
    an error, [findOne] throws an [RpcException] that carries that error,
    and so does [changeStatus], whatever status it was asked for: the
    update is not reached and the store is as it was. *)
Theorem findOne_catalog_failure natsClient (id : string)
    (status : OrderStatus) w r (err : RpcError) :
  let ids := map oi_productId (rec_OrderItem r) in
  stored w id = Some r ->
  validate_products natsClient ids = inl err ->
  findOne natsClient id w
  = (inl (RpcException err), after_send w (ValidateProducts ids)) /\
  changeStatus natsClient {| cos_id := id; cos_status := status |} w
  = (inl (RpcException err), after_send w (ValidateProducts ids)).
Proof.
  intros ids E Herr.
  assert (Hfind : findOne natsClient id w
                  = (inl (RpcException err),
                     after_send w (ValidateProducts ids))).
  { rewrite (findOne_stored _ _ _ _ E). fold ids. cbv zeta. rewrite Herr.
    reflexivity. }
  split; [exact Hfind|].
  unfold changeStatus, bind. cbn [cos_id cos_status]. rewrite Hfind.
  reflexivity.
Qed.

(** X8. [findOne] never writes to the store, and it asks the catalog only
    for an order it has found: then it sends one request, whose ids are the
    productIds of the stored items in order, repeated as they are stored. *)
Theorem findOne_sends natsClient (id : string) w :
  orders (snd (findOne natsClient id w)) = orders w /\
  sent (snd (findOne natsClient id w))
  = match stored w id with
    | None => sent w
    | Some r =>
        sent w ++ [ValidateProducts (map oi_productId (rec_OrderItem r))]
    end.
Proof.
  split; [apply findOne_keeps_orders|].
  destruct (stored w id) as [r|] eqn:E.
  - rewrite (findOne_stored _ _ _ _ E). simpl.
    destruct (validate_products natsClient _); [reflexivity|].
    destruct (mapE _ _); reflexivity.
  - unfold stored in E.
    unfold findOne, bind, order_findFirst, throw. rewrite E. reflexivity.
Qed.

(** X9. For an id with no order record, [changeStatus] fails as [findOne]
    does, with the [NOT_FOUND] failure that quotes the id; it sends nothing
    and writes nothing. *)
Theorem changeStatus_not_found natsClient
    (changeOrderStatus : ChangeOrderStatus) w :
  (forall r, In r (orders w) ->
             order_id (rec_order r) <> cos_id changeOrderStatus) ->
  changeStatus natsClient changeOrderStatus w
  = (inl (RpcException
            {| rpc_message :=
                 ("Order with id " ++ cos_id changeOrderStatus
                                   ++ " not found")%string;
               rpc_status := NOT_FOUND |}), w).
Proof.
  intros H. apply stored_none in H. unfold stored in H.
  assert (Hfind : findOne natsClient (cos_id changeOrderStatus) w
                  = (inl (RpcException
                            {| rpc_message :=
                                 ("Order with id " ++ cos_id changeOrderStatus
                                                   ++ " not found")%string;
                               rpc_status := NOT_FOUND |}), w)).
  { unfold findOne, bind, order_findFirst, throw. rewrite H. reflexivity. }
  unfold changeStatus, bind. rewrite Hfind. reflexivity.
Qed.

(** X10. A status change changes the status and nothing else.  When
    [changeStatus] updates a stored order, the stored record afterwards has
    the new status and the same identifier, totals, paid flag, payment
    time, charge reference, creation time, items and receipts as before;
    so an order that was paid stays marked paid under any new status. *)
Theorem changeStatus_only_status natsClient (id : string)
    (status : OrderStatus) w r products :
  stored w id = Some r ->
  status <> order_status (rec_order r) ->
  validate_products natsClient (map oi_productId (rec_OrderItem r))
  = inr products ->
  Forall (fun orderItem => in_reply products (oi_productId orderItem))
         (rec_OrderItem r) ->
  exists r',
    stored (snd (changeStatus natsClient
                   {| cos_id := id; cos_status := status |} w)) id
    = Some r' /\
    order_status (rec_order r') = status /\
    order_id (rec_order r') = order_id (rec_order r) /\
    order_totalAmount (rec_order r') = order_totalAmount (rec_order r) /\
    order_totalItems (rec_order r') = order_totalItems (rec_order r) /\
    order_paid (rec_order r') = order_paid (rec_order r) /\
    order_paidAt (rec_order r') = order_paidAt (rec_order r) /\
    order_stripeChargeId (rec_order r')
    = order_stripeChargeId (rec_order r) /\
    order_createdAt (rec_order r') = order_createdAt (rec_order r) /\
    rec_OrderItem r' = rec_OrderItem r /\
    rec_OrderReceipt r' = rec_OrderReceipt r.
Proof.
  intros E Hneq Hreply Hknown.
  exists (with_status status r). split; [|repeat split].
  unfold changeStatus, bind. cbn [cos_id cos_status].
  rewrite (findOne_named _ _ _ _ _ E Hreply Hknown). cbn [owp_order].
  destruct (OrderStatus_eqb_spec (order_status (rec_order r)) status)
    as [He | _]; [congruence|].
  erewrite order_update_run; [| exact E | reflexivity].
  unfold stored. simpl. eapply find_replace_first; [exact E|].
  destruct (stored_some _ _ _ E) as [_ Hr]. unfold has_id. simpl.
  rewrite Hr. apply String.eqb_refl.
Qed.

(** X11. [changeStatus] leaves every other order alone: however it ends,
    the record under any identifier other than the one it was given is the
    same afterwards, and no order is added or removed. *)
Theorem changeStatus_frame natsClient
    (changeOrderStatus : ChangeOrderStatus) w (id' : string) :
  id' <> cos_id changeOrderStatus ->
  stored (snd (changeStatus natsClient changeOrderStatus w)) id'
  = stored w id' /\
  order_ids (snd (changeStatus natsClient changeOrderStatus w))
  = order_ids w.
Proof.
  intros Hne. unfold changeStatus, bind.
  pose proof (findOne_keeps_orders natsClient (cos_id changeOrderStatus) w)
    as Hkeep.
  destruct (findOne natsClient (cos_id changeOrderStatus) w)
    as [[e | order] w1]; simpl in Hkeep.
  - unfold stored, order_ids. simpl. rewrite Hkeep. split; reflexivity.
  - assert (Hst : stored w1 id' = stored w id')
      by (unfold stored; rewrite Hkeep; reflexivity).
    assert (Hids : order_ids w1 = order_ids w)
      by (unfold order_ids; rewrite Hkeep; reflexivity).
    destruct (OrderStatus_eqb _ _); [split; assumption|].
    pose proof (order_update_other (cos_id changeOrderStatus) id'
                  (data_status (cos_status changeOrderStatus)) w1
                  (data_status_id _) Hne) as Hother.
    assert (Hids' : order_ids
                      (snd (order_update (cos_id changeOrderStatus)
                              (data_status (cos_status changeOrderStatus)) w1))
                    = order_ids w1).
    { unfold order_update.
      destruct (find _ (orders w1)) as [r|] eqn:E; [|reflexivity].
      unfold order_ids. simpl. apply replace_first_ids. simpl.
      apply find_some in E. destruct E as [_ E].
      apply String.eqb_eq. exact E. }
    destruct (order_update _ _ w1) as [[e | updated] w2]; simpl in *;
      split; congruence.
Qed.


(** X13. A status change can be undone, as long as the catalog names the
    products of the order at each call: changing the status of a stored
    order and then, with the catalog as it then is, changing it back to
    what it was leaves the order table exactly as it was before the two
    calls. *)
Theorem changeStatus_round_trip natsClient natsClient' (id : string)
    (status : OrderStatus) w r products products' :
  stored w id = Some r ->
  status <> order_status (rec_order r) ->
  validate_products natsClient (map oi_productId (rec_OrderItem r))
  = inr products ->
  Forall (fun orderItem => in_reply products (oi_productId orderItem))
         (rec_OrderItem r) ->
  validate_products natsClient' (map oi_productId (rec_OrderItem r))
  = inr products' ->
  Forall (fun orderItem => in_reply products' (oi_productId orderItem))
         (rec_OrderItem r) ->
  orders
    (snd (changeStatus natsClient'
            {| cos_id := id; cos_status := order_status (rec_order r) |}
            (snd (changeStatus natsClient
                    {| cos_id := id; cos_status := status |} w))))
  = orders w.
Proof.
  intros E Hneq Hreply Hknown Hreply' Hknown'.
  assert (Hid : has_id id (with_status status r) = true).
  { destruct (stored_some _ _ _ E) as [_ Hr]. unfold has_id. simpl.
    rewrite Hr. apply String.eqb_refl. }
  set (w0 := after_send w
               (ValidateProducts (map oi_productId (rec_OrderItem r)))).
  set (w1 := with_orders (replace_first id (with_status status r) (orders w0))
               w0).
  assert (E1 : stored w1 id = Some (with_status status r)).
  { unfold stored, w1. simpl. eapply find_replace_first; [exact E | exact Hid]. }
  assert (Hfirst : changeStatus natsClient
                     {| cos_id := id; cos_status := status |} w
                   = (inr (inr (rec_order (with_status status r))), w1)).
  { unfold changeStatus, bind. cbn [cos_id cos_status].
    rewrite (findOne_named _ _ _ _ _ E Hreply Hknown). cbn [owp_order].
    destruct (OrderStatus_eqb_spec (order_status (rec_order r)) status)
      as [He | _]; [congruence|].
    fold w0. erewrite order_update_run; [reflexivity | exact E | reflexivity]. }
  rewrite Hfirst. cbn [snd].
  unfold changeStatus, bind. cbn [cos_id cos_status].
  rewrite (findOne_named natsClient' id w1 (with_status status r) products'
             E1 Hreply' Hknown').
  cbn [owp_order].
  change (order_status (rec_order (with_status status r))) with status.
  destruct (OrderStatus_eqb_spec status (order_status (rec_order r)))
    as [He | _]; [congruence|].
  erewrite order_update_run; [| exact E1 | reflexivity].
  simpl. rewrite replace_first_twice by exact Hid.
  destruct r as [[oid amount count st paid paidAt charge created] items rcpts].
  apply (replace_first_found id _ _ E).
Qed.

(** ** paidOrder *)

(** X14. For an id with no order record, [paidOrder] is rejected by the
    store: it throws the store's record-not-found error and writes
    nothing. *)
Theorem paidOrder_not_found (schema : ReceiptRelation) (now : Z)
    (paidOrderDto : PaidOrderDto) w :
  (forall r, In r (orders w) ->
             order_id (rec_order r) <> paid_orderId paidOrderDto) ->
  paidOrder schema now paidOrderDto w = (inl (PrismaError RecordNotFound), w).
Proof.
  intros H. apply stored_none in H. unfold stored in H.
  unfold paidOrder, bind, order_update. rewrite H. reflexivity.
Qed.

(** X15. [paidOrder] does not look at the state of the order.  Whatever
    the status and the paid flag of a stored order, provided the store
    accepts one more receipt, the order becomes [PAID] and paid, its
    payment time is the time of the call and its charge reference the one
    given, a receipt with the given URL is added after those it had, and
    its identifier, totals, creation time and items stay as they were. *)
Theorem paidOrder_from_any_state (schema : ReceiptRelation) (now : Z)
    (paidOrderDto : PaidOrderDto) w r :
  stored w (paid_orderId paidOrderDto) = Some r ->
  schema = OneToMany \/ rec_OrderReceipt r = [] ->
  exists paid w' r',
    paidOrder schema now paidOrderDto w = (inr paid, w') /\
    stored w' (paid_orderId paidOrderDto) = Some r' /\
    rec_order r' = paid /\
    order_status paid = PAID /\
    order_paid paid = true /\
    order_paidAt paid = Some now /\
    order_stripeChargeId paid = Some (paid_stripePaymentId paidOrderDto) /\
    order_id paid = order_id (rec_order r) /\
    order_totalAmount paid = order_totalAmount (rec_order r) /\
    order_totalItems paid = order_totalItems (rec_order r) /\
    order_createdAt paid = order_createdAt (rec_order r) /\
    rec_OrderItem r' = rec_OrderItem r /\
    rec_OrderReceipt r'
    = rec_OrderReceipt r
      ++ [ {| receipt_url := paid_receiptUrl paidOrderDto |} ].
Proof.
  intros E Hok.
  exists (rec_order (paid_record now paidOrderDto r)).
  eexists. exists (paid_record now paidOrderDto r).
  split; [apply (paidOrder_accepted _ _ _ _ _ E Hok)|].
  split; [|repeat split].
  unfold stored. simpl. eapply find_replace_first; [exact E|].
  destruct (stored_some _ _ _ E) as [_ Hr]. unfold has_id. simpl.
  rewrite Hr. apply String.eqb_refl.
Qed.

(** X16. [paidOrder] touches one order and talks to nobody: however it
    ends, the record under any other identifier is the same afterwards, no
    order is added or removed, and no message is sent. *)
Theorem paidOrder_frame (schema : ReceiptRelation) (now : Z)
    (paidOrderDto : PaidOrderDto) w (id' : string) :
  id' <> paid_orderId paidOrderDto ->
  stored (snd (paidOrder schema now paidOrderDto w)) id' = stored w id' /\
  order_ids (snd (paidOrder schema now paidOrderDto w)) = order_ids w /\
  sent (snd (paidOrder schema now paidOrderDto w)) = sent w.
Proof.
  intros Hne.
  set (data := data_paid (M:=M) schema now
                 (paid_stripePaymentId paidOrderDto)
                 (paid_receiptUrl paidOrderDto)).
  assert (Hsnd : snd (paidOrder schema now paidOrderDto w)
                 = snd (order_update (paid_orderId paidOrderDto) data w)).
  { unfold paidOrder, bind, ret. fold data.
    destruct (order_update _ data w) as [[e | paid] w']; reflexivity. }
  rewrite Hsnd. split; [|split].
  - apply order_update_other; [|exact Hne].
    intros r r' Hd. exact (data_paid_id _ _ _ _ _ _ Hd).
  - unfold order_update.
    destruct (find _ (orders w)) as [r|] eqn:E; [|reflexivity].
    destruct (data r) as [e | r'] eqn:Ed; [reflexivity|].
    unfold order_ids. simpl. apply replace_first_ids.
    rewrite (data_paid_id _ _ _ _ _ _ Ed).
    apply find_some in E. destruct E as [_ E].
    apply String.eqb_eq. exact E.
  - apply order_update_sent.
Qed.

(** ** createPaymentSession *)

(** X17. A payment session for an order read with [findOne] is asked with
    the prices and quantities stored at creation and the names of the
    current catalog.  The request carries the order's identifier, the
    currency [usd] and one entry per stored item in order; the answer is
    returned as it is, an error of the payment service is thrown as an
    [RpcException] carrying it, and the store is not written. *)
Theorem payment_session_of_found_order natsClient (id : string) w r
    products :
  let items :=
    map (fun orderItem =>
           {| pay_name := catalog_name products (oi_productId orderItem);
              pay_price := oi_price orderItem;
              pay_quantity := oi_quantity orderItem |})
        (rec_OrderItem r) in
  stored w id = Some r ->
  validate_products natsClient (map oi_productId (rec_OrderItem r))
  = inr products ->
  Forall (fun orderItem => in_reply products (oi_productId orderItem))
         (rec_OrderItem r) ->
  exists order w1,
    findOne natsClient id w = (inr order, w1) /\
    fst (createPaymentSession natsClient order w1)
    = match create_payment_session natsClient id "usd" items with
      | inl err => inl (RpcException err)
      | inr paymentSession => inr paymentSession
      end /\
    sent (snd (createPaymentSession natsClient order w1))
    = sent w ++ [ValidateProducts (map oi_productId (rec_OrderItem r));
                 CreatePaymentSession id "usd" items] /\
    orders (snd (createPaymentSession natsClient order w1)) = orders w.
Proof.
  intros items E Hreply Hknown.
  destruct (stored_some _ _ _ E) as [_ Hid].
  eexists. eexists. split; [apply (findOne_named _ _ _ _ _ E Hreply Hknown)|].
  unfold createPaymentSession. simpl.
  unfold named_items. rewrite map_map. simpl. fold items. rewrite Hid.
  destruct (create_payment_session natsClient id "usd" items); simpl;
    rewrite <- app_assoc; repeat split.
Qed.

(** ** findAll *)

Lemma findAll_run (paginationDto : PaginationDto) w :
  let limit := pg_limit paginationDto in
  let page := pg_page paginationDto in
  let matching := filter (where_status (pg_status paginationDto)) (orders w) in
  findAll paginationDto w
  = (inr {| page_data :=
              map rec_order
                (firstn (Pos.to_nat limit)
                   (skipn ((Pos.to_nat page - 1) * Pos.to_nat limit)
                      matching));
            page_meta :=
              {| meta_page := page;
                 meta_total := Z.of_nat (length matching);
                 meta_lastPage :=
                   Math_ceil_div (Z.of_nat (length matching)) limit |} |},
     w).
Proof.
  intros limit page matching.
  unfold findAll, bind, order_count, order_findMany, ret.
  fold limit page matching.
  replace (Z.to_nat ((Z.pos page - 1) * Z.pos limit))
    with ((Pos.to_nat page - 1) * Pos.to_nat limit)%nat.
  - reflexivity.
  - rewrite Z2Nat.inj_mul, Z2Nat.inj_sub by lia. reflexivity.
Qed.

Lemma firstn_plus {A : Type} (a b : nat) (l : list A) :
  firstn (a + b) l = firstn a l ++ firstn b (skipn a l).
Proof.
  revert l. induction a as [|a IH]; intros l; [reflexivity|].
  destruct l as [|x l]; simpl.
  - rewrite firstn_nil. reflexivity.
  - rewrite IH. reflexivity.
Qed.

Lemma chunks_firstn {A : Type} (size : nat) (l : list A) (k : nat) :
  concat (map (fun n => firstn size (skipn ((n - 1) * size) l)) (seq 1 k))
  = firstn (k * size) l.
Proof.
  induction k as [|k IH]; [reflexivity|].
  rewrite seq_S, map_app, concat_app, IH. simpl.
  rewrite app_nil_r, Nat.sub_0_r.
  rewrite (Nat.add_comm size (k * size)), firstn_plus. reflexivity.
Qed.

(** X18. The pages of a listing have the sizes a reader expects: there is
    no page exactly when nothing matches; a page before the last is full;
    the last page holds the rest, at least one order; and a page after the
    last is empty, not an error. *)
Theorem findAll_page_sizes (paginationDto : PaginationDto) w :
  let limit := pg_limit paginationDto in
  let page := pg_page paginationDto in
  let total :=
    Z.of_nat (length (filter (where_status (pg_status paginationDto))
                        (orders w))) in
  exists result,
    findAll paginationDto w = (inr result, w) /\
    (meta_lastPage (page_meta result) = 0 <-> total = 0) /\
    (Z.pos page < meta_lastPage (page_meta result) ->
     length (page_data result) = Pos.to_nat limit) /\
    (Z.pos page = meta_lastPage (page_meta result) ->
     (1 <= length (page_data result))%nat /\
     Z.of_nat (length (page_data result))
     = total - (Z.pos page - 1) * Z.pos limit) /\
    (meta_lastPage (page_meta result) < Z.pos page ->
     page_data result = []).
Proof.
  intros limit page total.
  eexists. split; [apply findAll_run|].
  cbn [page_data page_meta meta_lastPage meta_total].
  fold limit page.
  set (matching := filter (where_status (pg_status paginationDto)) (orders w))
    in *.
  fold total.
  pose proof (Math_ceil_div_spec total limit) as Hceil.
  set (lastPage := Math_ceil_div total limit) in *.
  set (skip := ((Pos.to_nat page - 1) * Pos.to_nat limit)%nat) in *.
  assert (Hskip : Z.of_nat skip = (Z.pos page - 1) * Z.pos limit).
  { unfold skip. rewrite Nat2Z.inj_mul, Nat2Z.inj_sub by lia.
    rewrite !positive_nat_Z. reflexivity. }
  assert (Hlimit : Z.of_nat (Pos.to_nat limit) = Z.pos limit)
    by apply positive_nat_Z.
  assert (Htotal : 0 <= total) by (unfold total; lia).
  clearbody skip.
  split; [|split; [|split]].
  - split; intros H0.
    + rewrite H0 in Hceil. lia.
    + rewrite H0 in Hceil.
      assert (lastPage - 1 < 0).
      { apply (Z.mul_lt_mono_pos_r (Z.pos limit)); lia. }
      assert (0 <= lastPage).
      { apply (Z.mul_le_mono_pos_r _ _ (Z.pos limit)); lia. }
      lia.
  - intros Hbefore.
    assert (Z.pos page * Z.pos limit <= (lastPage - 1) * Z.pos limit).
    { apply Z.mul_le_mono_nonneg_r; lia. }
    rewrite length_map, length_firstn, length_skipn.
    unfold total in *. lia.
  - intros Hlast.
    rewrite length_map, length_firstn, length_skipn.
    rewrite <- Hlast in Hceil. unfold total in *. lia.
  - intros Hafter.
    assert (lastPage * Z.pos limit <= (Z.pos page - 1) * Z.pos limit).
    { apply Z.mul_le_mono_nonneg_r; lia. }
    rewrite skipn_all2 by (unfold total in *; lia).
    rewrite firstn_nil. reflexivity.
Qed.

(** X19. Paging loses nothing and repeats nothing: for any page size and
    status filter, the data of pages 1 to [lastPage], one after the other,
    are exactly the matching orders in the order of the store. *)
Theorem findAll_pages_cover (limit : positive)
    (status : option OrderStatus) w :
  let matching := filter (where_status status) (orders w) in
  let lastPage := Math_ceil_div (Z.of_nat (length matching)) limit in
  concat (map (page_of limit status w) (seq 1 (Z.to_nat lastPage)))
  = map rec_order matching.
Proof.
  intros matching lastPage.
  rewrite (map_ext_in _
             (fun n => map rec_order
                         (firstn (Pos.to_nat limit)
                            (skipn ((n - 1) * Pos.to_nat limit) matching)))).
  2:{ intros n Hn. apply in_seq in Hn. unfold page_of.
      rewrite findAll_run. simpl. fold matching.
      rewrite Nat2Pos.id by lia. reflexivity. }
  rewrite <- (map_map (fun n => firstn (Pos.to_nat limit)
                                  (skipn ((n - 1) * Pos.to_nat limit) matching))
                (map rec_order)).
  rewrite <- concat_map, chunks_firstn.
  rewrite firstn_all2; [reflexivity|].
  pose proof (Math_ceil_div_spec (Z.of_nat (length matching)) limit) as Hceil.
  fold lastPage in Hceil.
  assert (Hpos : 0 <= lastPage).
  { apply (Z.mul_le_mono_pos_r _ _ (Z.pos limit)); lia. }
  apply Nat2Z.inj_le. rewrite Nat2Z.inj_mul, Z2Nat.id, positive_nat_Z by lia.
  lia.
Qed.

(** ** Invariants of the store *)

Lemma Forall_replace_first (P : OrderRecord M -> Prop) (id : string) r'
    (rows : list (OrderRecord M)) :
  Forall P rows -> P r' -> Forall P (replace_first id r' rows).
Proof.
  intros Hrows Hr'. induction Hrows as [|x rows Hx Hrest IH]; simpl.
  - constructor.
  - destruct (has_id id x); constructor; assumption.
Qed.

Lemma order_update_Forall (P : OrderRecord M -> Prop) (id : string)
    (data : OrderRecord M -> Result (OrderRecord M)) w :
  (forall r r', data r = inr r' -> P r -> P r') ->
  Forall P (orders w) ->
  Forall P (orders (snd (order_update id data w))).
Proof.
  intros Hdata Hw. unfold order_update.
  destruct (find (has_id id) (orders w)) as [r|] eqn:E; [|exact Hw].
  destruct (data r) as [e | r'] eqn:Ed; [exact Hw|].
  simpl. apply Forall_replace_first; [exact Hw|].
  apply (Hdata _ _ Ed). apply find_some in E. destruct E as [Hin _].
  rewrite Forall_forall in Hw. apply Hw. exact Hin.
Qed.

Lemma changeStatus_Forall (P : OrderRecord M -> Prop) natsClient
    (changeOrderStatus : ChangeOrderStatus) w :
  (forall r r', data_status (cos_status changeOrderStatus) r = inr r' ->
                P r -> P r') ->
  Forall P (orders w) ->
  Forall P (orders (snd (changeStatus natsClient changeOrderStatus w))).
Proof.
  intros Hdata Hw. unfold changeStatus, bind.
  pose proof (findOne_keeps_orders natsClient (cos_id changeOrderStatus) w)
    as Hkeep.
  destruct (findOne natsClient (cos_id changeOrderStatus) w)
    as [[e | order] w1]; simpl in Hkeep.
  - simpl. rewrite Hkeep. exact Hw.
  - rewrite <- Hkeep in Hw.
    destruct (OrderStatus_eqb _ _); [exact Hw|].
    pose proof (order_update_Forall P (cos_id changeOrderStatus)
                  (data_status (cos_status changeOrderStatus)) w1 Hdata Hw)
      as Hupd.
    destruct (order_update _ _ w1) as [[e | updated] w2]; exact Hupd.
Qed.

Lemma paidOrder_Forall (P : OrderRecord M -> Prop)
    (schema : ReceiptRelation) (now : Z) (paidOrderDto : PaidOrderDto) w :
  (forall r r',
     data_paid schema now (paid_stripePaymentId paidOrderDto)
       (paid_receiptUrl paidOrderDto) r = inr r' ->
     P r -> P r') ->
  Forall P (orders w) ->
  Forall P (orders (snd (paidOrder schema now paidOrderDto w))).
Proof.
  intros Hdata Hw. unfold paidOrder, bind, ret.
  pose proof (order_update_Forall P (paid_orderId paidOrderDto) _ w Hdata Hw)
    as Hupd.
  destruct (order_update _ _ w) as [[e | paid] w1]; exact Hupd.
Qed.

(** The amount [create] computes is the sum over the items it stores. *)
Lemma reduce_amount_of_data products (items : list OrderItemDto) :
  forall (acc total : M) (data : list (OrderItem M)),
    reduce
      (fun acc orderItem =>
         match prop "price" product_price
                 (find_product products (item_productId orderItem)) with
         | inl e => inl e
         | inr price =>
             inr (madd acc (mscale price (item_quantity orderItem)))
         end) items acc = inr total ->
    mapE
      (fun item =>
         match prop "price" product_price
                 (find_product products (item_productId item)) with
         | inl e => inl e
         | inr price =>
             inr {| oi_price := price;
                    oi_quantity := item_quantity item;
                    oi_productId := item_productId item |}
         end) items = inr data ->
    total
    = fold_left madd
        (map (fun orderItem =>
                mscale (oi_price orderItem) (oi_quantity orderItem)) data)
        acc.
Proof.
  induction items as [|item items IH]; simpl; intros acc total data Hr Hm.
  - injection Hr as <-. injection Hm as <-. reflexivity.
  - destruct (prop "price" product_price
                (find_product products (item_productId item)))
      as [e | price]; [discriminate|].
    destruct (mapE _ items) as [e | data'] eqn:Ed; [discriminate|].
    injection Hm as <-. simpl. apply (IH _ _ _ Hr eq_refl).
Qed.

(** X20. The totals of section 3 are an invariant of the service.  If in
    every stored order the amount is the sum of price times quantity over
    its items and the item count is the sum of their quantities, the same
    holds after [create], [changeStatus] and [paidOrder], whatever their
    arguments and however they end. *)
Theorem service_keeps_totals natsClient w :
  Forall totals_ok (orders w) ->
  (forall (newId : string) (now : Z) (createOrderDto : CreateOrderDto),
     Forall totals_ok
       (orders (snd (create natsClient newId now createOrderDto w)))) /\
  (forall changeOrderStatus : ChangeOrderStatus,
     Forall totals_ok
       (orders (snd (changeStatus natsClient changeOrderStatus w)))) /\
  (forall (schema : ReceiptRelation) (now : Z) (paidOrderDto : PaidOrderDto),
     Forall totals_ok
       (orders (snd (paidOrder schema now paidOrderDto w)))).
Proof.
  intros Hw. split; [|split].
  - intros newId now createOrderDto.
    unfold create, bind, send_validate_products, lift, order_create, ret.
    destruct (validate_products natsClient _) as [err | products];
      [exact Hw|].
    destruct (reduce _ _ _) as [e | totalAmount] eqn:Etotal; [exact Hw|].
    destruct (mapE _ (dto_items createOrderDto)) as [e | data] eqn:Edata;
      [exact Hw|].
    simpl orders.
    destruct (existsb _ _); [exact Hw|]. simpl owi_OrderItem.
    assert (Hnew : Forall totals_ok
                     (orders w ++
                      [ {| rec_order :=
                             {| order_id := newId;
                                order_totalAmount := totalAmount;
                                order_totalItems :=
                                  fold_left
                                    (fun acc orderItem =>
                                       acc + item_quantity orderItem)
                                    (dto_items createOrderDto) 0;
                                order_status := PENDING;
                                order_paid := false;
                                order_paidAt := None;
                                order_stripeChargeId := None;
                                order_createdAt := now |};
                           rec_OrderItem := data;
                           rec_OrderReceipt := [] |} ])).
    { apply Forall_app. split; [exact Hw|]. constructor; [|constructor].
      split; simpl.
      - exact (reduce_amount_of_data _ _ _ _ _ Etotal Edata).
      - rewrite fold_left_quantity, Z.add_0_l. f_equal. symmetry.
        eapply mapE_inr_map; [|exact Edata]. intros item y Hy. simpl in Hy.
        destruct (prop _ _ _); [discriminate|]. injection Hy as <-.
        reflexivity. }
    destruct (mapE _ data); exact Hnew.
  - intros changeOrderStatus. apply changeStatus_Forall; [|exact Hw].
    intros r r' Hd Hr. injection Hd as <-. exact Hr.
  - intros schema now paidOrderDto. apply paidOrder_Forall; [|exact Hw].
    intros r r' Hd Hr. unfold data_paid in Hd.
    destruct (receipt_create _ _ _); [discriminate|].
    injection Hd as <-. exact Hr.
Qed.

(** X21. A paid order always carries the evidence of its payment.  If
    every stored order marked paid has a payment time, a charge reference
    and a receipt, the same holds after [create], [changeStatus] and
    [paidOrder], whatever their arguments and however they end. *)
Theorem service_keeps_paid_evidence natsClient w :
  Forall paid_ok (orders w) ->
  (forall (newId : string) (now : Z) (createOrderDto : CreateOrderDto),
     Forall paid_ok
       (orders (snd (create natsClient newId now createOrderDto w)))) /\
  (forall changeOrderStatus : ChangeOrderStatus,
     Forall paid_ok
       (orders (snd (changeStatus natsClient changeOrderStatus w)))) /\
  (forall (schema : ReceiptRelation) (now : Z) (paidOrderDto : PaidOrderDto),
     Forall paid_ok
       (orders (snd (paidOrder schema now paidOrderDto w)))).
Proof.
  intros Hw. split; [|split].
  - intros newId now createOrderDto.
    unfold create, bind, send_validate_products, lift, order_create, ret.
    destruct (validate_products natsClient _) as [err | products];
      [exact Hw|].
    destruct (reduce _ _ _) as [e | totalAmount]; [exact Hw|].
    destruct (mapE _ (dto_items createOrderDto)) as [e | data]; [exact Hw|].
    simpl orders.
    destruct (existsb _ _); [exact Hw|]. simpl owi_OrderItem.
    destruct (mapE _ data); simpl; apply Forall_app; (split; [exact Hw|]);
      (constructor; [|constructor]); intros Hpaid; discriminate Hpaid.
  - intros changeOrderStatus. apply changeStatus_Forall; [|exact Hw].
    intros r r' Hd Hr. injection Hd as <-. exact Hr.
  - intros schema now paidOrderDto. apply paidOrder_Forall; [|exact Hw].
    intros r r' Hd _. unfold data_paid, receipt_create in Hd.
    assert (Hsome : forall (l : list OrderReceipt) (x : OrderReceipt),
               l ++ [x] <> []).
    { intros l x H. apply app_eq_nil in H. destruct H as [_ H].
      discriminate H. }
    destruct schema; destruct (rec_OrderReceipt r); try discriminate;
      injection Hd as <-; intros _; simpl;
      (split; [discriminate | split; [discriminate|]]);
      first [discriminate | apply Hsome].
Qed.

(** ** Listings and the other operations *)

Lemma count_replace_first (f : OrderRecord M -> bool) (id : string) r r'
    (rows : list (OrderRecord M)) :
  find (has_id id) rows = Some r ->
  (length (filter f (replace_first id r' rows))
   + (if f r then 1 else 0)
   = length (filter f rows) + (if f r' then 1 else 0))%nat.
Proof.
  induction rows as [|x rows IH]; simpl; [discriminate|].
  destruct (has_id id x); intros H.
  - injection H as <-. simpl. destruct (f x), (f r'); simpl; lia.
  - specialize (IH H). simpl. destruct (f x); simpl; lia.
Qed.

Lemma In_slice {A : Type} (take skip : nat) (l : list A) (x : A) :
  In x (firstn take (skipn skip l)) -> In x l.
Proof.
  intros H. rewrite <- (firstn_skipn skip l). apply in_or_app. right.
  rewrite <- (firstn_skipn take (skipn skip l)). apply in_or_app. left.
  exact H.
Qed.

(** X22. A filtered listing is sound: with a status filter, every order in
    the data of any page has that status, and with or without a filter
    every order listed is the order part of a stored record. *)
Theorem findAll_lists_matching_orders (paginationDto : PaginationDto) w :
  exists result,
    findAll paginationDto w = (inr result, w) /\
    (forall status, pg_status paginationDto = Some status ->
       Forall (fun order => order_status order = status) (page_data result)) /\
    Forall (fun order => exists r, In r (orders w) /\ rec_order r = order)
           (page_data result).
Proof.
  eexists. split; [apply findAll_run|]. cbn [page_data].
  assert (Hsub : forall r,
             In r (firstn (Pos.to_nat (pg_limit paginationDto))
                     (skipn ((Pos.to_nat (pg_page paginationDto) - 1)
                             * Pos.to_nat (pg_limit paginationDto))
                        (filter (where_status (pg_status paginationDto))
                           (orders w)))) ->
             In r (orders w) /\
             where_status (pg_status paginationDto) r = true).
  { intros r Hin. apply In_slice in Hin.
    apply filter_In in Hin. exact Hin. }
  split.
  - intros status Hstatus. apply Forall_forall. intros order Hin.
    apply in_map_iff in Hin. destruct Hin as [r [<- Hin]].
    destruct (Hsub r Hin) as [_ Hmatch]. rewrite Hstatus in Hmatch.
    simpl in Hmatch.
    destruct (OrderStatus_eqb_spec (order_status (rec_order r)) status);
      [assumption | discriminate].
  - apply Forall_forall. intros order Hin.
    apply in_map_iff in Hin. destruct Hin as [r [<- Hin]].
    exists r. split; [exact (proj1 (Hsub r Hin)) | reflexivity].
Qed.

(** X23. A payment shows when the order is read: after [paidOrder] has
    succeeded on a stored order, [findOne] with a catalog that names its
    products returns the order as [paidOrder] returned it, [PAID] and
    paid, with the items and prices it had. *)
Theorem paidOrder_then_findOne natsClient (schema : ReceiptRelation)
    (now : Z) (paidOrderDto : PaidOrderDto) w r products :
  stored w (paid_orderId paidOrderDto) = Some r ->
  schema = OneToMany \/ rec_OrderReceipt r = [] ->
  validate_products natsClient (map oi_productId (rec_OrderItem r))
  = inr products ->
  Forall (fun orderItem => in_reply products (oi_productId orderItem))
         (rec_OrderItem r) ->
  exists paid w' order,
    paidOrder schema now paidOrderDto w = (inr paid, w') /\
    fst (findOne natsClient (paid_orderId paidOrderDto) w') = inr order /\
    owp_order order = paid /\
    order_status paid = PAID /\
    order_paid paid = true /\
    owp_OrderItem order = named_items products (rec_OrderItem r).
Proof.
  intros E Hok Hreply Hknown.
  eexists. eexists. eexists.
  split; [apply (paidOrder_accepted _ _ _ _ _ E Hok)|].
  split.
  { erewrite (findOne_named natsClient _ _ (paid_record now paidOrderDto r)
                products); [reflexivity | | exact Hreply | exact Hknown].
    unfold stored. simpl. eapply find_replace_first; [exact E|].
    destruct (stored_some _ _ _ E) as [_ Hr]. unfold has_id. simpl.
    rewrite Hr. apply String.eqb_refl. }
  repeat split.
Qed.

(** X24. A created order shows in the listings as a pending order: after a
    successful [create], the total of a listing is one more than before
    when the listing is unfiltered or filtered on [PENDING], and is
    unchanged for any other status. *)
Theorem create_then_findAll natsClient (newId : string) (now : Z)
    (createOrderDto : CreateOrderDto) w products :
  let items := dto_items createOrderDto in
  validate_products natsClient (map item_productId items) = inr products ->
  Forall (fun item => in_reply products (item_productId item)) items ->
  (forall r, In r (orders w) -> order_id (rec_order r) <> newId) ->
  exists order w',
    create natsClient newId now createOrderDto w = (inr order, w') /\
    forall paginationDto : PaginationDto,
    exists before after,
      findAll paginationDto w = (inr before, w) /\
      findAll paginationDto w' = (inr after, w') /\
      meta_total (page_meta after)
      = meta_total (page_meta before)
        + match pg_status paginationDto with
          | None | Some PENDING => 1
          | Some _ => 0
          end.
Proof.
  intros items Hreply Hknown Hfresh.
  apply fresh_id_not_stored in Hfresh.
  eexists. eexists. split.
  { apply (create_known _ _ _ _ _ products Hreply Hknown Hfresh). }
  intros paginationDto. eexists. eexists.
  split; [apply findAll_run|]. split; [apply findAll_run|].
  cbn [page_meta meta_total]. simpl orders.
  rewrite filter_app, length_app, Nat2Z.inj_add. f_equal.
  destruct (pg_status paginationDto) as [[| | |]|]; reflexivity.
Qed.

(** X25. A status change moves the order between the listings: after
    [changeStatus] has updated an order, the total of the listing filtered
    on the new status is one more, the total of the listing filtered on the
    old status is one less, and the total of the unfiltered listing is the
    same. *)
Theorem changeStatus_then_findAll natsClient (id : string)
    (status : OrderStatus) w r products (page limit : positive) :
  let total := fun (filter : option OrderStatus) (w0 : World M) =>
    match fst (findAll {| pg_page := page; pg_limit := limit;
                          pg_status := filter |} w0) with
    | inr result => meta_total (page_meta result)
    | inl _ => 0
    end in
  stored w id = Some r ->
  status <> order_status (rec_order r) ->
  validate_products natsClient (map oi_productId (rec_OrderItem r))
  = inr products ->
  Forall (fun orderItem => in_reply products (oi_productId orderItem))
         (rec_OrderItem r) ->
  exists updated w',
    changeStatus natsClient {| cos_id := id; cos_status := status |} w
    = (inr (inr updated), w') /\
    total (Some status) w' = total (Some status) w + 1 /\
    total (Some (order_status (rec_order r))) w'
    = total (Some (order_status (rec_order r))) w - 1 /\
    total None w' = total None w.
Proof.
  intros total E Hneq Hreply Hknown.
  set (w0 := after_send w
               (ValidateProducts (map oi_productId (rec_OrderItem r)))).
  exists (rec_order (with_status status r)),
         (with_orders (replace_first id (with_status status r) (orders w0))
            w0).
  split.
  { unfold changeStatus, bind. cbn [cos_id cos_status].
    rewrite (findOne_named _ _ _ _ _ E Hreply Hknown). cbn [owp_order].
    destruct (OrderStatus_eqb_spec (order_status (rec_order r)) status)
      as [He | _]; [congruence|].
    fold w0. erewrite order_update_run; [reflexivity | exact E | reflexivity]. }
  assert (Hcount : forall filter,
             (Z.of_nat (length (List.filter (where_status filter)
                                  (replace_first id (with_status status r)
                                     (orders w))))
              + (if where_status filter r then 1 else 0)
              = Z.of_nat (length (List.filter (where_status filter) (orders w)))
                + (if where_status filter (with_status status r)
                   then 1 else 0))).
  { intros filter.
    pose proof (count_replace_first (where_status filter) id r
                  (with_status status r) (orders w) E) as Hc.
    destruct (where_status filter r), (where_status filter (with_status status r));
      lia. }
  unfold total. rewrite !findAll_run.
  cbn [fst page_meta meta_total pg_status].
  change (orders (with_orders
                    (replace_first id (with_status status r) (orders w0)) w0))
    with (replace_first id (with_status status r) (orders w)).
  split; [|split].
  - specialize (Hcount (Some status)). simpl in Hcount.
    rewrite OrderStatus_eqb_refl in Hcount.
    destruct (OrderStatus_eqb_spec (order_status (rec_order r)) status)
      as [He | _]; [congruence | lia].
  - specialize (Hcount (Some (order_status (rec_order r)))). simpl in Hcount.
    rewrite OrderStatus_eqb_refl in Hcount.
    destruct (OrderStatus_eqb_spec status (order_status (rec_order r)))
      as [He | _]; [congruence | lia].
  - specialize (Hcount None). simpl in Hcount. lia.
Qed.

End Coverage.

(** * The further properties, run *)

Lemma widgets_and_gadgets_priced :
  Forall (fun item => in_reply [widget; gadget] (item_productId item))
         (dto_items widgets_and_gadgets).
Proof.
  repeat apply Forall_cons; try apply Forall_nil;
    unfold in_reply; simpl; auto.
Qed.

Lemma two_widgets_priced :
  Forall (fun item => in_reply [widget] (item_productId item))
         (dto_items two_widgets).
Proof.
  repeat apply Forall_cons; try apply Forall_nil;
    unfold in_reply; simpl; auto.
Qed.

Lemma record_o1_named :
  Forall (fun orderItem => in_reply [widget; gadget] (oi_productId orderItem))
         (rec_OrderItem record_o1).
Proof.
  repeat apply Forall_cons; try apply Forall_nil;
    unfold in_reply; simpl; auto.
Qed.

Lemma empty_world_fresh (id : string) :
  forall r : OrderRecord Z,
    In r (orders empty_world) -> order_id (rec_order r) <> id.
Proof. intros r []. Qed.

Lemma world_o1_fresh_o2 :
  forall r : OrderRecord Z,
    In r (orders world_o1) -> order_id (rec_order r) <> "o2"%string.
Proof.
  intros r Hin. vm_compute in Hin. destruct Hin as [<- | []]. discriminate.
Qed.

Example world_two_holds_both :
  stored world_two "o1" = Some record_o1 /\
  stored world_two "o2" = Some record_o2.
Proof. split; reflexivity. Qed.

(** ** create *)

Lemma create_catalog_failure_witness :
  validate_products catalog_down
    (map item_productId (dto_items two_widgets))
  = inl {| rpc_message := "catalog unreachable"; rpc_status := 503 |} /\
  fst (create catalog_down "o2" 150 two_widgets world_o1)
  = inl (RpcException {| rpc_message := "catalog unreachable";
                         rpc_status := 503 |}) /\
  orders (snd (create catalog_down "o2" 150 two_widgets world_o1))
  = orders world_o1.
Proof.
  split; [reflexivity|].
  destruct (create_catalog_failure catalog_down "o2" 150 two_widgets world_o1
              _ eq_refl) as [Hrun Horders].
  split; [rewrite Hrun; reflexivity | exact Horders].
Defined.

Lemma create_returns_named_items_witness :
  validate_products (catalog_service [widget; gadget])
    (map item_productId (dto_items widgets_and_gadgets))
  = inr [widget; gadget] /\
  Forall (fun item => in_reply [widget; gadget] (item_productId item))
         (dto_items widgets_and_gadgets) /\
  (forall r, In r (orders empty_world) -> order_id (rec_order r) <> "o1"%string) /\
  exists order w',
    create (catalog_service [widget; gadget]) "o1" 100 widgets_and_gadgets
      empty_world = (inr order, w') /\
    map ni_name (owp_OrderItem order) = ["Widget"; "Gadget"]%string /\
    map ni_price (owp_OrderItem order) = [5; 7].
Proof.
  split; [reflexivity|]. split; [exact widgets_and_gadgets_priced|].
  split; [exact (empty_world_fresh "o1")|].
  destruct (create_returns_named_items (catalog_service [widget; gadget])
              "o1" 100 widgets_and_gadgets empty_world [widget; gadget]
              eq_refl widgets_and_gadgets_priced (empty_world_fresh "o1"))
    as [order [w' [Hrun _]]].
  exists order, w'. split; [exact Hrun|].
  vm_compute in Hrun. injection Hrun as <- _. split; reflexivity.
Defined.

Lemma create_then_findOne_witness :
  validate_products (catalog_service [widget; gadget])
    (map item_productId (dto_items widgets_and_gadgets))
  = inr [widget; gadget] /\
  Forall (fun item => in_reply [widget; gadget] (item_productId item))
         (dto_items widgets_and_gadgets) /\
  (forall r, In r (orders empty_world) -> order_id (rec_order r) <> "o1"%string) /\
  exists order w',
    create (catalog_service [widget; gadget]) "o1" 100 widgets_and_gadgets
      empty_world = (inr order, w') /\
    fst (findOne (catalog_service [widget; gadget]) "o1" w') = inr order.
Proof.
  split; [reflexivity|]. split; [exact widgets_and_gadgets_priced|].
  split; [exact (empty_world_fresh "o1")|].
  exact (create_then_findOne (catalog_service [widget; gadget]) "o1" 100
           widgets_and_gadgets empty_world [widget; gadget]
           eq_refl widgets_and_gadgets_priced (empty_world_fresh "o1")).
Defined.

Lemma create_keeps_existing_witness :
  stored world_o1 "o1" = Some record_o1 /\
  stored (snd (create (catalog_service [widget]) "o2" 150 two_widgets
                 world_o1)) "o1" = Some record_o1 /\
  stored (snd (create catalog_down "o2" 150 two_widgets world_o1)) "o1"
  = Some record_o1.
Proof.
  split; [reflexivity|]. split.
  - exact (create_keeps_existing (catalog_service [widget]) "o2" 150
             two_widgets world_o1 "o1" record_o1 eq_refl).
  - exact (create_keeps_existing catalog_down "o2" 150 two_widgets world_o1
             "o1" record_o1 eq_refl).
Defined.

Lemma create_no_items_witness :
  dto_items no_items = [] /\
  validate_products (catalog_service [widget; gadget]) [] = inr [] /\
  (forall r, In r (orders world_o1) -> order_id (rec_order r) <> "o2"%string) /\
  exists order w',
    create (catalog_service [widget; gadget]) "o2" 150 no_items world_o1
    = (inr order, w') /\
    order_totalAmount (owp_order order) = 0 /\
    order_totalItems (owp_order order) = 0 /\
    owp_OrderItem order = [] /\
    length (orders w') = 2%nat.
Proof.
  split; [reflexivity|]. split; [reflexivity|].
  split; [exact world_o1_fresh_o2|].
  destruct (create_no_items (catalog_service [widget; gadget]) "o2" 150
              no_items world_o1 [] eq_refl eq_refl world_o1_fresh_o2)
    as [order [w' [Hrun [Hamount [Hcount [Hitems _]]]]]].
  exists order, w'.
  split; [exact Hrun|]. split; [exact Hamount|]. split; [exact Hcount|].
  split; [exact Hitems|].
  vm_compute in Hrun. injection Hrun as _ <-. reflexivity.
Defined.

(** ** findOne and changeStatus *)

Lemma findOne_catalog_failure_witness :
  stored world_o1 "o1" = Some record_o1 /\
  validate_products catalog_down (map oi_productId (rec_OrderItem record_o1))
  = inl {| rpc_message := "catalog unreachable"; rpc_status := 503 |} /\
  fst (findOne catalog_down "o1" world_o1)
  = inl (RpcException {| rpc_message := "catalog unreachable";
                         rpc_status := 503 |}) /\
  fst (changeStatus catalog_down
         {| cos_id := "o1"; cos_status := CANCELLED |} world_o1)
  = inl (RpcException {| rpc_message := "catalog unreachable";
                         rpc_status := 503 |}) /\
  orders (snd (changeStatus catalog_down
                 {| cos_id := "o1"; cos_status := CANCELLED |} world_o1))
  = orders world_o1.
Proof.
  split; [reflexivity|]. split; [reflexivity|].
  destruct (findOne_catalog_failure catalog_down "o1" CANCELLED world_o1
              record_o1 _ eq_refl eq_refl) as [Hfind Hchange].
  split; [rewrite Hfind; reflexivity|].
  split; rewrite Hchange; reflexivity.
Defined.

Lemma changeStatus_not_found_witness :
  (forall r, In r (orders world_o1) -> order_id (rec_order r) <> "o2"%string) /\
  changeStatus (catalog_service [widget; gadget])
    {| cos_id := "o2"; cos_status := PAID |} world_o1
  = (inl (RpcException {| rpc_message := "Order with id o2 not found";
                          rpc_status := 404 |}), world_o1).
Proof.
  split; [exact world_o1_fresh_o2|].
  exact (changeStatus_not_found (catalog_service [widget; gadget])
           {| cos_id := "o2"; cos_status := PAID |} world_o1
           world_o1_fresh_o2).
Defined.

Example world_paid_holds_record_paid :
  stored world_paid "o1" = Some record_paid.
Proof. reflexivity. Qed.

Example world_cancelled_holds_record_cancelled :
  stored world_cancelled "o1" = Some record_cancelled.
Proof. reflexivity. Qed.

(** A paid order that is then cancelled stays marked paid and keeps its
    receipt. *)
Lemma changeStatus_only_status_witness :
  stored world_paid "o1" = Some record_paid /\
  CANCELLED <> order_status (rec_order record_paid) /\
  validate_products (catalog_service [widget; gadget])
    (map oi_productId (rec_OrderItem record_paid)) = inr [widget; gadget] /\
  Forall (fun orderItem => in_reply [widget; gadget] (oi_productId orderItem))
         (rec_OrderItem record_paid) /\
  exists r',
    stored (snd (changeStatus (catalog_service [widget; gadget])
                   {| cos_id := "o1"; cos_status := CANCELLED |} world_paid))
           "o1" = Some r' /\
    order_status (rec_order r') = CANCELLED /\
    order_paid (rec_order r') = true /\
    order_paidAt (rec_order r') = Some 200 /\
    rec_OrderReceipt r' = rec_OrderReceipt record_paid.
Proof.
  assert (Hneq : CANCELLED <> order_status (rec_order record_paid))
    by discriminate.
  split; [reflexivity|]. split; [exact Hneq|]. split; [reflexivity|].
  split; [exact record_o1_named|].
  destruct (changeStatus_only_status (catalog_service [widget; gadget]) "o1"
              CANCELLED world_paid record_paid [widget; gadget]
              eq_refl Hneq eq_refl record_o1_named)
    as [r' [Hstored [Hstatus [_ [_ [_ [Hpaid [HpaidAt [_ [_ [_ Hrcpt]]]]]]]]]]].
  exists r'.
  split; [exact Hstored|]. split; [exact Hstatus|].
  split; [exact Hpaid|]. split; [exact HpaidAt | exact Hrcpt].
Defined.

Lemma changeStatus_frame_witness :
  "o2"%string <> cos_id {| cos_id := "o1"; cos_status := DELIVERED |} /\
  stored (snd (changeStatus (catalog_service [widget; gadget])
                 {| cos_id := "o1"; cos_status := DELIVERED |} world_two))
         "o2" = Some record_o2 /\
  order_ids (snd (changeStatus (catalog_service [widget; gadget])
                    {| cos_id := "o1"; cos_status := DELIVERED |} world_two))
  = ["o1"; "o2"]%string.
Proof.
  assert (Hne : "o2"%string
                <> cos_id {| cos_id := "o1"; cos_status := DELIVERED |})
    by discriminate.
  split; [exact Hne|].
  destruct (changeStatus_frame (catalog_service [widget; gadget])
              {| cos_id := "o1"; cos_status := DELIVERED |} world_two "o2"
              Hne) as [Hstored Hids].
  split; [rewrite Hstored; reflexivity | rewrite Hids; reflexivity].
Defined.


(** The change back meets a catalog that has repriced both products. *)
Lemma changeStatus_round_trip_witness :
  stored world_o1 "o1" = Some record_o1 /\
  DELIVERED <> order_status (rec_order record_o1) /\
  validate_products (catalog_service [widget; gadget])
    (map oi_productId (rec_OrderItem record_o1)) = inr [widget; gadget] /\
  Forall (fun orderItem => in_reply [widget; gadget] (oi_productId orderItem))
         (rec_OrderItem record_o1) /\
  validate_products (catalog_service [widget_repriced; gadget_repriced])
    (map oi_productId (rec_OrderItem record_o1))
  = inr [widget_repriced; gadget_repriced] /\
  Forall (fun orderItem =>
            in_reply [widget_repriced; gadget_repriced]
                     (oi_productId orderItem))
         (rec_OrderItem record_o1) /\
  orders
    (snd (changeStatus (catalog_service [widget_repriced; gadget_repriced])
            {| cos_id := "o1"; cos_status := PENDING |}
            (snd (changeStatus (catalog_service [widget; gadget])
                    {| cos_id := "o1"; cos_status := DELIVERED |} world_o1))))
  = orders world_o1.
Proof.
  assert (Hneq : DELIVERED <> order_status (rec_order record_o1))
    by discriminate.
  assert (Hknown' :
            Forall (fun orderItem =>
                      in_reply [widget_repriced; gadget_repriced]
                               (oi_productId orderItem))
                   (rec_OrderItem record_o1)).
  { repeat apply Forall_cons; try apply Forall_nil;
      unfold in_reply; simpl; auto. }
  split; [reflexivity|]. split; [exact Hneq|]. split; [reflexivity|].
  split; [exact record_o1_named|]. split; [reflexivity|].
  split; [exact Hknown'|].
  exact (changeStatus_round_trip (catalog_service [widget; gadget])
           (catalog_service [widget_repriced; gadget_repriced]) "o1"
           DELIVERED world_o1 record_o1 [widget; gadget]
           [widget_repriced; gadget_repriced]
           eq_refl Hneq eq_refl record_o1_named eq_refl Hknown').
Defined.

(** ** paidOrder *)

Lemma paidOrder_not_found_witness :
  (forall r, In r (orders world_o1) ->
             order_id (rec_order r)
             <> paid_orderId {| paid_orderId := "o2";
                                paid_stripePaymentId := "ch_2";
                                paid_receiptUrl := "https://pay.example/2" |}) /\
  paidOrder OneToOne 200
    {| paid_orderId := "o2";
       paid_stripePaymentId := "ch_2";
       paid_receiptUrl := "https://pay.example/2" |} world_o1
  = (inl (PrismaError RecordNotFound), world_o1).
Proof.
  split; [exact world_o1_fresh_o2|].
  exact (paidOrder_not_found OneToOne 200
           {| paid_orderId := "o2";
              paid_stripePaymentId := "ch_2";
              paid_receiptUrl := "https://pay.example/2" |} world_o1
           world_o1_fresh_o2).
Defined.

(** A cancelled order is paid all the same. *)
Lemma paidOrder_from_any_state_witness :
  stored world_cancelled (paid_orderId payment_o1) = Some record_cancelled /\
  (OneToOne = OneToMany \/ rec_OrderReceipt record_cancelled = []) /\
  exists paid w' r',
    paidOrder OneToOne 200 payment_o1 world_cancelled = (inr paid, w') /\
    stored w' "o1" = Some r' /\
    order_status paid = PAID /\
    order_paid paid = true /\
    order_paidAt paid = Some 200 /\
    order_stripeChargeId paid = Some "ch_1"%string /\
    rec_OrderReceipt r'
    = [ {| receipt_url := "https://pay.example/receipt/1" |} ].
Proof.
  split; [reflexivity|]. split; [right; reflexivity|].
  destruct (paidOrder_from_any_state OneToOne 200 payment_o1 world_cancelled
              record_cancelled eq_refl (or_intror eq_refl))
    as (paid & w' & r' & Hrun & Hstored & _ & Hstatus & Hpaid & HpaidAt
        & Hcharge & _ & _ & _ & _ & _ & Hrcpt).
  exists paid, w', r'.
  split; [exact Hrun|]. split; [exact Hstored|]. split; [exact Hstatus|].
  split; [exact Hpaid|]. split; [exact HpaidAt|]. split; [exact Hcharge|].
  exact Hrcpt.
Defined.

Lemma paidOrder_frame_witness :
  "o2"%string <> paid_orderId payment_o1 /\
  stored (snd (paidOrder OneToOne 200 payment_o1 world_two)) "o2"
  = Some record_o2 /\
  order_ids (snd (paidOrder OneToOne 200 payment_o1 world_two))
  = ["o1"; "o2"]%string /\
  sent (snd (paidOrder OneToOne 200 payment_o1 world_two)) = sent world_two.
Proof.
  assert (Hne : "o2"%string <> paid_orderId payment_o1) by discriminate.
  split; [exact Hne|].
  destruct (paidOrder_frame OneToOne 200 payment_o1 world_two "o2" Hne)
    as [Hstored [Hids Hsent]].
  split; [rewrite Hstored; reflexivity|].
  split; [rewrite Hids; reflexivity | exact Hsent].
Defined.

(** ** createPaymentSession *)

(** The catalog has repriced both products; the session is asked at the
    prices of the order. *)
Lemma payment_session_of_found_order_witness :
  stored world_o1 "o1" = Some record_o1 /\
  validate_products (catalog_service [widget_repriced; gadget_repriced])
    (map oi_productId (rec_OrderItem record_o1))
  = inr [widget_repriced; gadget_repriced] /\
  Forall (fun orderItem =>
            in_reply [widget_repriced; gadget_repriced]
                     (oi_productId orderItem))
         (rec_OrderItem record_o1) /\
  exists order w1,
    findOne (catalog_service [widget_repriced; gadget_repriced]) "o1" world_o1
    = (inr order, w1) /\
    fst (createPaymentSession
           (catalog_service [widget_repriced; gadget_repriced]) order w1)
    = inr "session"%string /\
    sent (snd (createPaymentSession
                 (catalog_service [widget_repriced; gadget_repriced])
                 order w1))
    = sent world_o1
      ++ [ValidateProducts ["p1"; "p2"]%string;
          CreatePaymentSession "o1" "usd"
            [ {| pay_name := "Widget"; pay_price := 5; pay_quantity := 2 |};
              {| pay_name := "Gadget"; pay_price := 7; pay_quantity := 3 |} ]].
Proof.
  assert (Hknown :
            Forall (fun orderItem =>
                      in_reply [widget_repriced; gadget_repriced]
                               (oi_productId orderItem))
                   (rec_OrderItem record_o1)).
  { repeat apply Forall_cons; try apply Forall_nil;
      unfold in_reply; simpl; auto. }
  split; [reflexivity|]. split; [reflexivity|]. split; [exact Hknown|].
  destruct (payment_session_of_found_order
              (catalog_service [widget_repriced; gadget_repriced]) "o1"
              world_o1 record_o1 [widget_repriced; gadget_repriced]
              eq_refl eq_refl Hknown)
    as [order [w1 [Hrun [Hsession [Hsent _]]]]].
  exists order, w1.
  split; [exact Hrun|]. split; [exact Hsession | exact Hsent].
Defined.

(** ** findAll *)

(** Twenty-five pending orders in pages of ten: the second page is full,
    the third holds five, the fourth is empty. *)
Lemma findAll_page_sizes_witness :
  (exists result,
     findAll second_page world_30 = (inr result, world_30) /\
     length (page_data result) = 10%nat) /\
  (exists result,
     findAll third_page world_30 = (inr result, world_30) /\
     Z.of_nat (length (page_data result)) = 5) /\
  (exists result,
     findAll fourth_page world_30 = (inr result, world_30) /\
     page_data result = []).
Proof.
  split; [|split].
  - destruct (findAll_page_sizes second_page world_30)
      as (result & Hrun & _ & Hfull & _ & _).
    exists result. split; [exact Hrun|].
    rewrite (findAll_run second_page world_30) in Hrun.
    injection Hrun as <-. apply Hfull. reflexivity.
  - destruct (findAll_page_sizes third_page world_30)
      as (result & Hrun & _ & _ & Hlast & _).
    exists result. split; [exact Hrun|].
    rewrite (findAll_run third_page world_30) in Hrun.
    injection Hrun as <-.
    exact (proj2 (Hlast eq_refl)).
  - destruct (findAll_page_sizes fourth_page world_30)
      as (result & Hrun & _ & _ & _ & Hempty).
    exists result. split; [exact Hrun|].
    rewrite (findAll_run fourth_page world_30) in Hrun.
    injection Hrun as <-. apply Hempty. reflexivity.
Defined.

(** The three pages of the pending orders, one after the other, are the
    twenty-five pending orders. *)
Lemma findAll_pages_cover_witness :
  concat (map (page_of 10 (Some PENDING) world_30) (seq 1 3))
  = map rec_order (filter (where_status (Some PENDING)) (orders world_30)).
Proof. exact (findAll_pages_cover 10 (Some PENDING) world_30). Defined.

Lemma findAll_lists_matching_orders_witness :
  exists result,
    findAll second_page world_30 = (inr result, world_30) /\
    Forall (fun order => order_status order = PENDING) (page_data result).
Proof.
  destruct (findAll_lists_matching_orders second_page world_30)
    as (result & Hrun & Hstatus & _).
  exists result. split; [exact Hrun|]. exact (Hstatus PENDING eq_refl).
Defined.

Lemma create_then_findAll_witness :
  validate_products (catalog_service [widget])
    (map item_productId (dto_items two_widgets)) = inr [widget] /\
  Forall (fun item => in_reply [widget] (item_productId item))
         (dto_items two_widgets) /\
  (forall r, In r (orders world_o1) -> order_id (rec_order r) <> "o2"%string) /\
  exists order w',
    create (catalog_service [widget]) "o2" 150 two_widgets world_o1
    = (inr order, w') /\
    exists before after,
      findAll second_page world_o1 = (inr before, world_o1) /\
      findAll second_page w' = (inr after, w') /\
      meta_total (page_meta before) = 1 /\
      meta_total (page_meta after) = 2.
Proof.
  split; [reflexivity|]. split; [exact two_widgets_priced|].
  split; [exact world_o1_fresh_o2|].
  destruct (create_then_findAll (catalog_service [widget]) "o2" 150
              two_widgets world_o1 [widget]
              eq_refl two_widgets_priced world_o1_fresh_o2)
    as (order & w' & Hrun & Hlist).
  exists order, w'. split; [exact Hrun|].
  destruct (Hlist second_page) as (before & after & Hb & Ha & Htotal).
  exists before, after. split; [exact Hb|]. split; [exact Ha|].
  assert (Hone : meta_total (page_meta before) = 1).
  { rewrite (findAll_run second_page world_o1) in Hb.
    injection Hb as <-. reflexivity. }
  split; [exact Hone|]. rewrite Htotal, Hone. reflexivity.
Defined.

Lemma changeStatus_then_findAll_witness :
  stored world_two "o1" = Some record_o1 /\
  DELIVERED <> order_status (rec_order record_o1) /\
  validate_products (catalog_service [widget; gadget])
    (map oi_productId (rec_OrderItem record_o1)) = inr [widget; gadget] /\
  Forall (fun orderItem => in_reply [widget; gadget] (oi_productId orderItem))
         (rec_OrderItem record_o1) /\
  exists updated w',
    changeStatus (catalog_service [widget; gadget])
      {| cos_id := "o1"; cos_status := DELIVERED |} world_two
    = (inr (inr updated), w') /\
    (exists result,
       fst (findAll {| pg_page := 1; pg_limit := 10;
                       pg_status := Some DELIVERED |} w') = inr result /\
       meta_total (page_meta result) = 1) /\
    (exists result,
       fst (findAll {| pg_page := 1; pg_limit := 10;
                       pg_status := Some PENDING |} w') = inr result /\
       meta_total (page_meta result) = 1).
Proof.
  assert (Hneq : DELIVERED <> order_status (rec_order record_o1))
    by discriminate.
  split; [reflexivity|]. split; [exact Hneq|]. split; [reflexivity|].
  split; [exact record_o1_named|].
  destruct (changeStatus_then_findAll (catalog_service [widget; gadget]) "o1"
              DELIVERED world_two record_o1 [widget; gadget] 1 10
              eq_refl Hneq eq_refl record_o1_named)
    as (updated & w' & Hrun & Hnew & Hold & _).
  exists updated, w'. split; [exact Hrun|].
  cbv beta zeta in Hnew, Hold.
  rewrite !findAll_run in Hnew. rewrite !findAll_run in Hold.
  cbn [fst page_meta meta_total] in Hnew, Hold.
  split; eexists; (split; [rewrite findAll_run; reflexivity|]);
    cbn [page_meta meta_total].
  - eapply eq_trans; [exact Hnew | reflexivity].
  - eapply eq_trans; [exact Hold | reflexivity].
Defined.

(** ** paidOrder, then findOne *)

Lemma paidOrder_then_findOne_witness :
  stored world_o1 (paid_orderId payment_o1) = Some record_o1 /\
  (OneToOne = OneToMany \/ rec_OrderReceipt record_o1 = []) /\
  validate_products (catalog_service [widget; gadget])
    (map oi_productId (rec_OrderItem record_o1)) = inr [widget; gadget] /\
  Forall (fun orderItem => in_reply [widget; gadget] (oi_productId orderItem))
         (rec_OrderItem record_o1) /\
  exists paid w' order,
    paidOrder OneToOne 200 payment_o1 world_o1 = (inr paid, w') /\
    fst (findOne (catalog_service [widget; gadget]) "o1" w') = inr order /\
    owp_order order = paid /\
    order_status paid = PAID /\
    order_paid paid = true /\
    map ni_price (owp_OrderItem order) = [5; 7].
Proof.
  split; [reflexivity|]. split; [right; reflexivity|].
  split; [reflexivity|]. split; [exact record_o1_named|].
  destruct (paidOrder_then_findOne (catalog_service [widget; gadget])
              OneToOne 200 payment_o1 world_o1 record_o1 [widget; gadget]
              eq_refl (or_intror eq_refl) eq_refl record_o1_named)
    as (paid & w' & order & Hrun & Hfind & Horder & Hstatus & Hpaid & Hitems).
  exists paid, w', order.
  split; [exact Hrun|]. split; [exact Hfind|]. split; [exact Horder|].
  split; [exact Hstatus|]. split; [exact Hpaid|].
  rewrite Hitems. reflexivity.
Defined.

(** ** Invariants *)

Lemma world_two_totals : Forall totals_ok (orders world_two).
Proof. repeat constructor. Qed.

Lemma world_paid_evidence : Forall paid_ok (orders world_paid).
Proof.
  constructor; [|constructor]. intros _.
  repeat split; discriminate.
Qed.

Lemma service_keeps_totals_witness :
  Forall totals_ok (orders world_two) /\
  Forall totals_ok
    (orders (snd (create (catalog_service [widget; gadget]) "o3" 300
                    widgets_twice world_two))) /\
  Forall totals_ok
    (orders (snd (changeStatus (catalog_service [widget; gadget])
                    {| cos_id := "o2"; cos_status := DELIVERED |}
                    world_two))) /\
  Forall totals_ok (orders (snd (paidOrder OneToOne 200 payment_o1 world_two))).
Proof.
  split; [exact world_two_totals|].
  destruct (service_keeps_totals (catalog_service [widget; gadget]) world_two
              world_two_totals) as (Hcreate & Hchange & Hpaid).
  split; [apply Hcreate|]. split; [apply Hchange | apply Hpaid].
Defined.

Lemma service_keeps_paid_evidence_witness :
  Forall paid_ok (orders world_paid) /\
  Forall paid_ok
    (orders (snd (create (catalog_service [widget; gadget]) "o3" 300
                    widgets_twice world_paid))) /\
  Forall paid_ok
    (orders (snd (changeStatus (catalog_service [widget; gadget])
                    {| cos_id := "o1"; cos_status := CANCELLED |}
                    world_paid))) /\
  Forall paid_ok (orders (snd (paidOrder OneToMany 300 payment_o1 world_paid))).
Proof.
  split; [exact world_paid_evidence|].
  destruct (service_keeps_paid_evidence (catalog_service [widget; gadget])
              world_paid world_paid_evidence) as (Hcreate & Hchange & Hpaid).
  split; [apply Hcreate|]. split; [apply Hchange | apply Hpaid].
Defined.
